(** * The request gate of fm-backend (src/middleware.ts) and its
      compliance API helpers (src/app/utils/complianceApi.ts)

    A shallow embedding of the Next.js middleware and of the two fetch
    helpers, together with the parts of the JavaScript runtime they call:
    strings as sequences of UTF-16 code units, [JSON.parse], the [Headers]
    and [URL] objects, and the application/x-www-form-urlencoded
    serializer behind [URLSearchParams]. *)

From Stdlib Require Import String Ascii List Bool NArith ZArith Lia.
Import ListNotations.

Local Open Scope N_scope.
Set Warnings "-register-all".

(* ================================================================== *)
(** ** JavaScript strings *)
(* ================================================================== *)

(** A JavaScript string is a finite sequence of 16-bit code units. *)
Definition code_unit := N.
Definition jsstring := list code_unit.

(** Literals: the code units of an ASCII string of the source text. *)
Definition lit (s : string) : jsstring :=
  map N_of_ascii (list_ascii_of_string s).

Definition ch (a : ascii) : code_unit := N_of_ascii a.

Definition QUOTE : code_unit := 34.
Definition BACKSLASH : code_unit := 92.
Definition APOSTROPHE : code_unit := 39.

(** Literals of JSON texts are written with apostrophes standing for the
    quotation mark: [jlit "{'role':'Admin'}"] is the text
    [{ QUOTE role QUOTE : QUOTE Admin QUOTE }]. *)
Definition jlit (s : string) : jsstring :=
  map (fun c => if c =? APOSTROPHE then QUOTE else c) (lit s).

Definition jsstring_eqb (a b : jsstring) : bool :=
  if list_eq_dec N.eq_dec a b then true else false.

(** [String.prototype.startsWith(searchString)] at position 0. *)
Fixpoint startsWith (s search : jsstring) {struct search} : bool :=
  match search, s with
  | [], _ => true
  | _ :: _, [] => false
  | c :: search', d :: s' => (d =? c) && startsWith s' search'
  end.

(** [String.prototype.includes(searchString)]: some position of [s]
    starts with [search]. *)
Fixpoint includes (s search : jsstring) : bool :=
  startsWith s search ||
  match s with
  | [] => false
  | _ :: s' => includes s' search
  end.

(** ASCII lowercasing of one code unit (A-Z to a-z, everything else
    unchanged).  This is the byte-lowercase of the Fetch standard, used
    for header names, and it is what [String.prototype.toLowerCase] does
    on a string of ASCII characters. *)
Definition ascii_lower (c : code_unit) : code_unit :=
  if (65 <=? c) && (c <=? 90) then c + 32 else c.

Definition ascii_toLowerCase (s : jsstring) : jsstring := map ascii_lower s.

Definition is_ascii (s : jsstring) : Prop := Forall (fun c => c < 128) s.

(* ================================================================== *)
(** ** Completions: a value, or a thrown error *)
(* ================================================================== *)

Inductive JSError : Type :=
| TypeError (message : jsstring)
| SyntaxError (message : jsstring)
| Error (message : jsstring).

Inductive completion (A : Type) : Type :=
| Normal (a : A)
| Throw (e : JSError).
Arguments Normal {A} a.
Arguments Throw {A} e.

Definition bind {A B} (c : completion A) (k : A -> completion B) : completion B :=
  match c with
  | Normal a => k a
  | Throw e => Throw e
  end.

Notation "x <- c ;; k" := (bind c (fun x => k))
  (at level 61, c at next level, right associativity).

(* ================================================================== *)
(** ** JSON values and [JSON.parse] *)
(* ================================================================== *)

(** The number a JSON text denotes, before rounding to a double:
    [(-1)^neg * mant * 10^exp10]. *)
Record JSONNumber : Type := mkNumber {
  neg : bool;
  mant : N;
  exp10 : Z
}.

(** An object keeps its members in the order of the text; a lookup takes
    the last member of that name, as [JSON.parse] lets a later duplicate
    overwrite an earlier one. *)
Inductive JSON : Type :=
| JNull
| JBool (b : bool)
| JNumber (n : JSONNumber)
| JString (s : jsstring)
| JArray (elements : list JSON)
| JObject (members : list (jsstring * JSON)).

Inductive parse_result (A : Type) : Type :=
| Parsed (a : A) (rest : jsstring)
| Invalid
| OutOfFuel.
Arguments Parsed {A} a rest.
Arguments Invalid {A}.
Arguments OutOfFuel {A}.

(** JSONWhiteSpace: TAB, LF, CR, SP. *)
Definition is_ws (c : code_unit) : bool :=
  (c =? 9) || (c =? 10) || (c =? 13) || (c =? 32).

Fixpoint skip_ws (s : jsstring) : jsstring :=
  match s with
  | c :: s' => if is_ws c then skip_ws s' else s
  | [] => []
  end.

Definition is_digit (c : code_unit) : bool := (48 <=? c) && (c <=? 57).

Definition hex_value (c : code_unit) : option N :=
  if is_digit c then Some (c - 48)
  else if (97 <=? c) && (c <=? 102) then Some (c - 87)
  else if (65 <=? c) && (c <=? 70) then Some (c - 55)
  else None.

Definition hex4 (a b c d : code_unit) : option code_unit :=
  match hex_value a, hex_value b, hex_value c, hex_value d with
  | Some x, Some y, Some z, Some w => Some (((x * 16 + y) * 16 + z) * 16 + w)
  | _, _, _, _ => None
  end.

(** The single-character escapes of a JSON string. *)
Definition simple_escape (c : code_unit) : option code_unit :=
  if c =? QUOTE then Some QUOTE
  else if c =? BACKSLASH then Some BACKSLASH
  else if c =? ch "/" then Some (ch "/")
  else if c =? ch "b" then Some 8
  else if c =? ch "f" then Some 12
  else if c =? ch "n" then Some 10
  else if c =? ch "r" then Some 13
  else if c =? ch "t" then Some 9
  else None.

(** The characters of a JSON string after its opening quotation mark, up
    to and including the closing one. *)
Fixpoint parse_string_chars (s acc : jsstring) : parse_result jsstring :=
  match s with
  | [] => Invalid
  | c :: rest =>
      if c =? QUOTE then Parsed (rev acc) rest
      else if c =? BACKSLASH then
        match rest with
        | [] => Invalid
        | e :: rest' =>
            if e =? ch "u" then
              match rest' with
              | h1 :: h2 :: h3 :: h4 :: rest'' =>
                  match hex4 h1 h2 h3 h4 with
                  | Some u => parse_string_chars rest'' (u :: acc)
                  | None => Invalid
                  end
              | _ => Invalid
              end
            else
              match simple_escape e with
              | Some u => parse_string_chars rest' (u :: acc)
              | None => Invalid
              end
        end
      else if c <? 32 then Invalid
      else parse_string_chars rest (c :: acc)
  end.

(** The longest run of decimal digits at the head of [s]. *)
Fixpoint span_digits (s : jsstring) : list code_unit * jsstring :=
  match s with
  | c :: s' =>
      if is_digit c then let (ds, rest) := span_digits s' in (c :: ds, rest)
      else ([], s)
  | [] => ([], [])
  end.

Definition digits_value (ds : list code_unit) : N :=
  fold_left (fun v d => v * 10 + (d - 48)) ds 0.

(** DecimalIntegerLiteral: [0], or a non-zero digit followed by digits. *)
Definition parse_int (s : jsstring) : parse_result (list code_unit) :=
  match s with
  | c :: s' =>
      if c =? ch "0" then Parsed [c] s'
      else if is_digit c then let (ds, rest) := span_digits s' in Parsed (c :: ds) rest
      else Invalid
  | [] => Invalid
  end.

(** JSONFraction, optional: a dot followed by at least one digit. *)
Definition parse_frac (s : jsstring) : parse_result (list code_unit) :=
  match s with
  | c :: s' =>
      if c =? ch "." then
        match span_digits s' with
        | ([], _) => Invalid
        | (ds, rest) => Parsed ds rest
        end
      else Parsed [] s
  | [] => Parsed [] s
  end.

(** ExponentPart, optional: [e] or [E], an optional sign, at least one digit. *)
Definition parse_exp (s : jsstring) : parse_result Z :=
  match s with
  | c :: s' =>
      if (c =? ch "e") || (c =? ch "E") then
        let (negative, s'') :=
          match s' with
          | d :: t => if d =? ch "-" then (true, t)
                      else if d =? ch "+" then (false, t)
                      else (false, s')
          | [] => (false, s')
          end in
        match span_digits s'' with
        | ([], _) => Invalid
        | (ds, rest) =>
            let v := Z.of_N (digits_value ds) in
            Parsed (if negative then (- v)%Z else v) rest
        end
      else Parsed 0%Z s
  | [] => Parsed 0%Z s
  end.

(** JSONNumber: an optional minus sign, the integer part, the fraction
    and the exponent. *)
Definition parse_number (s : jsstring) : parse_result JSONNumber :=
  let (negative, s1) :=
    match s with
    | c :: t => if c =? ch "-" then (true, t) else (false, s)
    | [] => (false, s)
    end in
  match parse_int s1 with
  | Parsed ids s2 =>
      match parse_frac s2 with
      | Parsed fds s3 =>
          match parse_exp s3 with
          | Parsed e s4 =>
              Parsed (mkNumber negative (digits_value (ids ++ fds))
                               (e - Z.of_nat (length fds))) s4
          | Invalid => Invalid
          | OutOfFuel => OutOfFuel
          end
      | Invalid => Invalid
      | OutOfFuel => OutOfFuel
      end
  | Invalid => Invalid
  | OutOfFuel => OutOfFuel
  end.

(** The three literal names. *)
Definition parse_keyword (s : jsstring) : parse_result JSON :=
  if startsWith s (lit "null") then Parsed JNull (skipn 4 s)
  else if startsWith s (lit "true") then Parsed (JBool true) (skipn 4 s)
  else if startsWith s (lit "false") then Parsed (JBool false) (skipn 5 s)
  else Invalid.

(** JSONValue, by recursive descent.  The fuel bounds the nesting of the
    calls; [JSON_parse] below supplies enough of it for any text
    ([JSON_parse_fuel]). *)
Fixpoint parse_value (fuel : nat) (s : jsstring) : parse_result JSON :=
  match fuel with
  | O => OutOfFuel
  | S fuel' =>
      match skip_ws s with
      | [] => Invalid
      | c :: rest =>
          if c =? ch "{" then
            match skip_ws rest with
            | [] => Invalid
            | c' :: rest' =>
                if c' =? ch "}" then Parsed (JObject []) rest'
                else parse_members fuel' (c' :: rest') []
            end
          else if c =? ch "[" then
            match skip_ws rest with
            | [] => Invalid
            | c' :: rest' =>
                if c' =? ch "]" then Parsed (JArray []) rest'
                else parse_elements fuel' (c' :: rest') []
            end
          else if c =? QUOTE then
            match parse_string_chars rest [] with
            | Parsed str rest' => Parsed (JString str) rest'
            | Invalid => Invalid
            | OutOfFuel => OutOfFuel
            end
          else if (c =? ch "-") || is_digit c then
            match parse_number (c :: rest) with
            | Parsed n rest' => Parsed (JNumber n) rest'
            | Invalid => Invalid
            | OutOfFuel => OutOfFuel
            end
          else parse_keyword (c :: rest)
      end
  end

(** The elements of a non-empty array, after its opening bracket. *)
with parse_elements (fuel : nat) (s : jsstring) (acc : list JSON)
  : parse_result JSON :=
  match fuel with
  | O => OutOfFuel
  | S fuel' =>
      match parse_value fuel' s with
      | Parsed v rest =>
          match skip_ws rest with
          | [] => Invalid
          | c :: rest' =>
              if c =? ch "," then parse_elements fuel' rest' (v :: acc)
              else if c =? ch "]" then Parsed (JArray (rev (v :: acc))) rest'
              else Invalid
          end
      | Invalid => Invalid
      | OutOfFuel => OutOfFuel
      end
  end

(** The members of a non-empty object, after its opening brace. *)
with parse_members (fuel : nat) (s : jsstring) (acc : list (jsstring * JSON))
  : parse_result JSON :=
  match fuel with
  | O => OutOfFuel
  | S fuel' =>
      match skip_ws s with
      | [] => Invalid
      | q :: s1 =>
          if q =? QUOTE then
            match parse_string_chars s1 [] with
            | Parsed key s2 =>
                match skip_ws s2 with
                | [] => Invalid
                | colon :: s3 =>
                    if colon =? ch ":" then
                      match parse_value fuel' s3 with
                      | Parsed v rest =>
                          match skip_ws rest with
                          | [] => Invalid
                          | c :: rest' =>
                              if c =? ch "," then
                                parse_members fuel' rest' ((key, v) :: acc)
                              else if c =? ch "}" then
                                Parsed (JObject (rev ((key, v) :: acc))) rest'
                              else Invalid
                          end
                      | Invalid => Invalid
                      | OutOfFuel => OutOfFuel
                      end
                    else Invalid
                end
            | Invalid => Invalid
            | OutOfFuel => OutOfFuel
            end
          else Invalid
      end
  end.

Definition JSON_parse_fuel (text : jsstring) : nat := 2 * length text + 1.

(** [JSON.parse(text)]: one value, surrounded by optional white space and
    nothing else; a [SyntaxError] is thrown otherwise. *)
Definition JSON_parse (text : jsstring) : completion JSON :=
  match parse_value (JSON_parse_fuel text) text with
  | Parsed v rest =>
      match skip_ws rest with
      | [] => Normal v
      | _ :: _ => Throw (SyntaxError (lit "Unexpected non-whitespace character after JSON"))
      end
  | Invalid => Throw (SyntaxError (lit "Unexpected token in JSON"))
  | OutOfFuel => Throw (SyntaxError (lit "Unexpected token in JSON"))
  end.

(** [ToBoolean] of a parsed number: false exactly when the double it
    rounds to is zero.  The value [mant * 10^exp10] is rounded to the
    nearest double, ties to even, so it becomes zero when it is zero or at
    most half the smallest subnormal [2^-1074]. *)
Definition rounds_to_zero (n : JSONNumber) : bool :=
  (mant n =? 0) ||
  ((exp10 n <? 0)%Z && (mant n * 2 ^ 1075 <=? 10 ^ Z.to_N (- exp10 n))).

(** [ToBoolean] of a value that [JSON.parse] returns. *)
Definition truthy (v : JSON) : bool :=
  match v with
  | JNull => false
  | JBool b => b
  | JNumber n => negb (rounds_to_zero n)
  | JString s => match s with [] => false | _ :: _ => true end
  | JArray _ => true
  | JObject _ => true
  end.

(** The last member of an object with the given name. *)
Fixpoint last_member (name : jsstring) (members : list (jsstring * JSON))
  : option JSON :=
  match members with
  | [] => None
  | (k, v) :: members' =>
      match last_member name members' with
      | Some w => Some w
      | None => if jsstring_eqb k name then Some v else None
      end
  end.

(** The property access [v.role] on a parsed value; [None] is
    [undefined].  An object answers with its own member, every other
    non-null value with what its prototype has under that name, which is
    nothing; on [null] the access throws. *)
Definition get_role (v : JSON) : completion (option JSON) :=
  match v with
  | JNull => Throw (TypeError (lit "Cannot read properties of null (reading 'role')"))
  | JObject members => Normal (last_member (lit "role") members)
  | _ => Normal None
  end.

(* ================================================================== *)
(** ** URLs and the application/x-www-form-urlencoded serializer *)
(* ================================================================== *)

Definition is_high_surrogate (c : code_unit) : bool := (55296 <=? c) && (c <=? 56319).
Definition is_low_surrogate (c : code_unit) : bool := (56320 <=? c) && (c <=? 57343).

(** The scalar values of a string (conversion to a USVString): a
    surrogate pair is one code point, a lone surrogate becomes U+FFFD. *)
Fixpoint scalar_values (s : jsstring) : list N :=
  match s with
  | [] => []
  | c :: rest =>
      if is_high_surrogate c then
        match rest with
        | d :: rest' =>
            if is_low_surrogate d
            then (65536 + (c - 55296) * 1024 + (d - 56320)) :: scalar_values rest'
            else 65533 :: scalar_values rest
        | [] => [65533]
        end
      else if is_low_surrogate c then 65533 :: scalar_values rest
      else c :: scalar_values rest
  end.

Definition utf8_encode (cp : N) : list N :=
  if cp <? 128 then [cp]
  else if cp <? 2048 then [192 + cp / 64; 128 + cp mod 64]
  else if cp <? 65536 then
    [224 + cp / 4096; 128 + (cp / 64) mod 64; 128 + cp mod 64]
  else
    [240 + cp / 262144; 128 + (cp / 4096) mod 64;
     128 + (cp / 64) mod 64; 128 + cp mod 64].

Definition is_alnum (b : N) : bool :=
  is_digit b || ((65 <=? b) && (b <=? 90)) || ((97 <=? b) && (b <=? 122)).

Definition hex_digit (n : N) : code_unit :=
  if n <? 10 then 48 + n else 55 + n.

(** One byte under the application/x-www-form-urlencoded percent-encode
    set, with space as plus: only ASCII alphanumerics and [* - . _] stay. *)
Definition urlencode_byte (b : N) : jsstring :=
  if b =? 32 then [ch "+"]
  else if is_alnum b || (b =? ch "*") || (b =? ch "-") || (b =? ch ".") || (b =? ch "_")
  then [b]
  else [ch "%"; hex_digit (b / 16); hex_digit (b mod 16)].

Definition urlencode (s : jsstring) : jsstring :=
  flat_map urlencode_byte (flat_map utf8_encode (scalar_values s)).

Fixpoint urlencoded_serialize (l : list (jsstring * jsstring)) : jsstring :=
  match l with
  | [] => []
  | [(n, v)] => urlencode n ++ [ch "="] ++ urlencode v
  | (n, v) :: l' => urlencode n ++ [ch "="] ++ urlencode v ++ [ch "&"] ++ urlencoded_serialize l'
  end.

(** [request.nextUrl]: the parsed URL of the request.  [protocol] ends
    with a colon, [search] is empty or starts with a question mark. *)
Record NextURL : Type := mkNextURL {
  protocol : jsstring;
  host : jsstring;
  pathname : jsstring;
  search : jsstring
}.

(** A [URL] object built by the middleware, with the list of its
    [searchParams] object. *)
Record URL : Type := mkURL {
  url_protocol : jsstring;
  url_host : jsstring;
  url_pathname : jsstring;
  url_searchParams : list (jsstring * jsstring)
}.

(** [new URL(path, base)] for an absolute path without query: scheme and
    host of the base, the given path, no query. *)
Definition new_URL (path : jsstring) (base : NextURL) : URL :=
  mkURL (protocol base) (host base) path [].

(** Setting a name in a list of pairs, as [URLSearchParams.prototype.set]
    and [Headers.prototype.set] do: the first pair of that name takes the
    value and the later ones are removed; a new name is appended. *)
Fixpoint remove_pairs (name : jsstring) (l : list (jsstring * jsstring))
  : list (jsstring * jsstring) :=
  match l with
  | [] => []
  | (n, v) :: l' =>
      if jsstring_eqb n name then remove_pairs name l'
      else (n, v) :: remove_pairs name l'
  end.

Fixpoint set_pair (name value : jsstring) (l : list (jsstring * jsstring))
  : list (jsstring * jsstring) :=
  match l with
  | [] => [(name, value)]
  | (n, v) :: l' =>
      if jsstring_eqb n name then (n, value) :: remove_pairs name l'
      else (n, v) :: set_pair name value l'
  end.

Definition searchParams_set (name value : jsstring) (u : URL) : URL :=
  mkURL (url_protocol u) (url_host u) (url_pathname u)
        (set_pair name value (url_searchParams u)).

(** [URLSearchParams.prototype.get]: the value of the first pair of that name. *)
Fixpoint searchParams_get (name : jsstring) (l : list (jsstring * jsstring))
  : option jsstring :=
  match l with
  | [] => None
  | (n, v) :: l' => if jsstring_eqb n name then Some v else searchParams_get name l'
  end.

(** The serialization of a [URL] object, which [NextResponse.redirect]
    puts in the Location header. *)
Definition href (u : URL) : jsstring :=
  url_protocol u ++ lit "//" ++ url_host u ++ url_pathname u ++
  match url_searchParams u with
  | [] => []
  | _ :: _ => ch "?" :: urlencoded_serialize (url_searchParams u)
  end.

(* ================================================================== *)
(** ** Headers, responses and requests *)
(* ================================================================== *)

(** A [Headers] object: its list of name and value pairs, names in lower case. *)
Definition Headers := list (jsstring * jsstring).

Fixpoint Headers_get (name : jsstring) (h : Headers) : option jsstring :=
  match h with
  | [] => None
  | (n, v) :: h' =>
      if jsstring_eqb n (ascii_toLowerCase name) then Some v else Headers_get name h'
  end.

Definition Headers_has (name : jsstring) (h : Headers) : bool :=
  match Headers_get name h with Some _ => true | None => false end.

(** [Headers.prototype.set]: replace the value of the first header of that
    name and drop the others, or append. *)
Definition Headers_set (name value : jsstring) (h : Headers) : Headers :=
  set_pair (ascii_toLowerCase name) value h.

Record NextResponse : Type := mkResponse {
  status : N;
  headers : Headers
}.

(** [NextResponse.next()]: the request goes on to its route. *)
Definition NextResponse_next : NextResponse :=
  mkResponse 200 [(lit "x-middleware-next", lit "1")].

(** [NextResponse.redirect(url)]: a 307 response with the Location header.
    The runtime passes [url] through the URL parser once more before it is
    stored; that renormalisation is not modelled. *)
Definition NextResponse_redirect (url : jsstring) : NextResponse :=
  mkResponse 307 [(lit "location", url)].

Definition set_header (name value : jsstring) (r : NextResponse) : NextResponse :=
  mkResponse (status r) (Headers_set name value (headers r)).

(** The incoming request.  [request.url] is the serialization of
    [nextUrl]; [cookies] are the pairs of the parsed Cookie header. *)
Record NextRequest : Type := mkRequest {
  nextUrl : NextURL;
  method : jsstring;
  ip : option jsstring;
  cookies : list (jsstring * jsstring);
  request_headers : Headers
}.

(** [request.cookies.get(name)]: the cookie of that name, if there is one. *)
Fixpoint cookies_get (name : jsstring) (c : list (jsstring * jsstring))
  : option jsstring :=
  match c with
  | [] => None
  | (n, v) :: c' => if jsstring_eqb n name then Some v else cookies_get name c'
  end.

(** [process.env]. *)
Record Env : Type := mkEnv {
  NODE_ENV : option jsstring;
  NEXT_PUBLIC_API_URL : option jsstring
}.

(** What a call of the middleware leaves behind: the lines written to the
    console and the completion of the call. *)
Record Outcome : Type := mkOutcome {
  console : list jsstring;
  result : completion NextResponse
}.

(* ================================================================== *)
(** ** src/middleware.ts *)
(* ================================================================== *)

(** [Array.prototype.some] with a callback that may throw: the first
    element the callback accepts ends the search, and so does a throw. *)
Fixpoint some {A : Type} (callback : A -> completion bool) (l : list A)
  : completion bool :=
  match l with
  | [] => Normal false
  | x :: l' =>
      found <- callback x ;;
      if (found : bool) then Normal true else some callback l'
  end.

Definition publicPaths : list jsstring :=
  [ lit "/login";
    lit "/forgot-password";
    lit "/reset-password";
    lit "/training";
    lit "/_next";
    lit "/favicon.ico";
    lit "/api/users/auth/login";
    lit "/api/users/auth/refresh" ].

Definition isPublicPath (pathname : jsstring) : bool :=
  existsb (fun path => startsWith pathname path) publicPaths.

Definition adminPaths : list jsstring :=
  [ lit "/admin";
    lit "/users";
    lit "/user-management" ].

Definition requiresAdminAccess (pathname : jsstring) : bool :=
  existsb (fun path => startsWith pathname path) adminPaths.

(** The body of the [try] block of [getUserFromRequest]. *)
Definition getUserFromRequest_try (request : NextRequest) : completion JSON :=
  match cookies_get (lit "user") (cookies request) with
  | Some value => JSON_parse value
  | None => Normal JNull
  end.

Definition getUserFromRequest (request : NextRequest) : JSON :=
  match getUserFromRequest_try request with
  | Normal user => user
  | Throw _ => JNull
  end.

Definition adminRoles : list jsstring :=
  [ lit "system admin"; lit "administrator"; lit "admin" ].

Section Gate.

(** [String.prototype.toLowerCase], the Unicode default lower-case
    conversion.  Its tables are not part of the development: the gate is
    defined over any such function, and the properties that evaluate it
    assume only what it does on ASCII strings. *)
Variable toLowerCase : jsstring -> jsstring.

(** The callback of [adminRoles.some]:
    [user.role?.toLowerCase().includes(role.toLowerCase())].  The
    optional chain ends with [undefined], which is falsy, when the role
    is [undefined] or [null]; a role of any other type than string has no
    [toLowerCase] to call. *)
Definition role_includes (user : JSON) (role : jsstring) : completion bool :=
  user_role <- get_role user ;;
  match user_role with
  | None => Normal false
  | Some JNull => Normal false
  | Some (JString s) => Normal (includes (toLowerCase s) (toLowerCase role))
  | Some _ => Throw (TypeError (lit "user.role?.toLowerCase is not a function"))
  end.

(** [middleware(request)], with [process.env] and the time stamp
    [new Date().toISOString()] of the call as arguments. *)
Definition middleware (env : Env) (now : jsstring) (request : NextRequest)
  : Outcome :=
  let pathname := pathname (nextUrl request) in
  (* Allow public paths *)
  if isPublicPath pathname then
    mkOutcome [] (Normal NextResponse_next)
  else
    (* Security headers for all responses *)
    let response := NextResponse_next in
    let response := set_header (lit "X-Frame-Options") (lit "DENY") response in
    let response := set_header (lit "X-Content-Type-Options") (lit "nosniff") response in
    let response :=
      set_header (lit "Referrer-Policy") (lit "strict-origin-when-cross-origin") response in
    let response := set_header (lit "X-XSS-Protection") (lit "1; mode=block") response in
    (* HTTPS enforcement (in production) *)
    if match NODE_ENV env with
       | Some mode => jsstring_eqb mode (lit "production")
       | None => false
       end
       && negb (includes (protocol (nextUrl request)) (lit "https"))
    then
      mkOutcome []
        (Normal (NextResponse_redirect
                   (lit "https://" ++ host (nextUrl request)
                      ++ pathname ++ search (nextUrl request))))
    else
      let line :=
        now ++ lit " - " ++ method request ++ lit " " ++ pathname ++ lit " - "
            ++ match ip request with
               | Some (c :: a) => c :: a
               | _ => lit "unknown IP"
               end in
      (* Check authentication for protected routes *)
      let user := getUserFromRequest request in
      mkOutcome [line]
        (if negb (truthy user) then
           (* Redirect to login for unauthenticated users *)
           let loginUrl := new_URL (lit "/login") (nextUrl request) in
           let loginUrl := searchParams_set (lit "redirect") pathname loginUrl in
           Normal (NextResponse_redirect (href loginUrl))
         else if requiresAdminAccess pathname then
           (* Check admin access for admin routes *)
           hasAdminAccess <- some (role_includes user) adminRoles ;;
           if negb hasAdminAccess then
             (* Redirect non-admins to their default page *)
             Normal (NextResponse_redirect
                       (href (new_URL (lit "/dashboard") (nextUrl request))))
           else Normal response
         else Normal response).

End Gate.

(** *** The gate decisions of the specification *)

Inductive GateDecision : Type :=
| Allow
| AllowWithHeaders
| RedirectLogin
| RedirectDefault
| RedirectHttps.

(** The fixed security headers, as the [Headers] object stores them. *)
Definition securityHeaders : Headers :=
  [ (lit "x-frame-options", lit "DENY");
    (lit "x-content-type-options", lit "nosniff");
    (lit "referrer-policy", lit "strict-origin-when-cross-origin");
    (lit "x-xss-protection", lit "1; mode=block") ].

(** The response that carries out a decision for a request. *)
Definition response_of (request : NextRequest) (d : GateDecision) : NextResponse :=
  let u := nextUrl request in
  match d with
  | Allow => NextResponse_next
  | AllowWithHeaders => mkResponse 200 (headers NextResponse_next ++ securityHeaders)
  | RedirectLogin =>
      NextResponse_redirect
        (protocol u ++ lit "//" ++ host u ++ lit "/login?redirect=" ++ urlencode (pathname u))
  | RedirectDefault =>
      NextResponse_redirect (protocol u ++ lit "//" ++ host u ++ lit "/dashboard")
  | RedirectHttps =>
      NextResponse_redirect (lit "https://" ++ host u ++ pathname u ++ search u)
  end.

(** The path classes of the specification. *)
Inductive PathClass : Type := Public | AdminProtected | OrdinaryProtected.

Definition classify (path : jsstring) : PathClass :=
  if isPublicPath path then Public
  else if requiresAdminAccess path then AdminProtected
  else OrdinaryProtected.

(** HTTPS enforcement applies: production mode and a protocol without [https]. *)
Definition https_enforced (env : Env) (request : NextRequest) : bool :=
  match NODE_ENV env with
  | Some mode => jsstring_eqb mode (lit "production")
  | None => false
  end && negb (includes (protocol (nextUrl request)) (lit "https")).

(* ================================================================== *)
(** ** src/app/utils/complianceApi.ts *)
(* ================================================================== *)

Definition hex_digit_lower (n : N) : code_unit :=
  if n <? 10 then 48 + n else 87 + n.

Definition unicode_escape (c : code_unit) : jsstring :=
  [BACKSLASH; ch "u"; hex_digit_lower (c / 4096); hex_digit_lower ((c / 256) mod 16);
   hex_digit_lower ((c / 16) mod 16); hex_digit_lower (c mod 16)].

(** One code unit outside a surrogate pair, as QuoteJSONString writes it. *)
Definition quote_unit (c : code_unit) : jsstring :=
  if c =? 8 then [BACKSLASH; ch "b"]
  else if c =? 9 then [BACKSLASH; ch "t"]
  else if c =? 10 then [BACKSLASH; ch "n"]
  else if c =? 12 then [BACKSLASH; ch "f"]
  else if c =? 13 then [BACKSLASH; ch "r"]
  else if c =? QUOTE then [BACKSLASH; QUOTE]
  else if c =? BACKSLASH then [BACKSLASH; BACKSLASH]
  else if (c <? 32) || is_high_surrogate c || is_low_surrogate c then unicode_escape c
  else [c].

Fixpoint quote_units (s : jsstring) : jsstring :=
  match s with
  | [] => []
  | c :: rest =>
      if is_high_surrogate c then
        match rest with
        | d :: rest' =>
            if is_low_surrogate d then c :: d :: quote_units rest'
            else quote_unit c ++ quote_units rest
        | [] => quote_unit c
        end
      else quote_unit c ++ quote_units rest
  end.

(** QuoteJSONString: [JSON.stringify] of a string. *)
Definition JSON_quote (s : jsstring) : jsstring :=
  QUOTE :: quote_units s ++ [QUOTE].

Fixpoint stringify_members (members : list (jsstring * jsstring)) : jsstring :=
  match members with
  | [] => []
  | [(k, v)] => JSON_quote k ++ [ch ":"] ++ JSON_quote v
  | (k, v) :: members' =>
      JSON_quote k ++ [ch ":"] ++ JSON_quote v ++ [ch ","] ++ stringify_members members'
  end.

(** [JSON.stringify] of an object literal whose properties are strings. *)
Definition JSON_stringify_record (members : list (jsstring * jsstring)) : jsstring :=
  [ch "{"] ++ stringify_members members ++ [ch "}"].

(** The second argument of [fetch]. *)
Record RequestInit : Type := mkInit {
  init_method : jsstring;
  init_headers : list (jsstring * jsstring);
  init_body : option jsstring
}.

(** [fetch(url)]: a GET without headers or body. *)
Definition default_init : RequestInit := mkInit (lit "GET") [] None.

(** What the helpers read of a [Response]: the status and the body text. *)
Record Response : Type := mkFetchResponse {
  res_status : N;
  res_body : jsstring
}.

(** [res.ok]: the status is in the range 200 to 299. *)
Definition ok (res : Response) : bool :=
  (200 <=? res_status res) && (res_status res <=? 299).

(** [res.json()]: the body parsed as JSON; the promise rejects with the
    [SyntaxError] of [JSON.parse] when the body is not a JSON text. *)
Definition Response_json (res : Response) : completion JSON :=
  JSON_parse (res_body res).

(** An async function that awaits [fetch]: it settles, or it issues a
    request and goes on with the settlement of the fetch promise. *)
Inductive Async (A : Type) : Type :=
| Settle (c : completion A)
| AwaitFetch (url : jsstring) (init : RequestInit)
             (k : completion Response -> Async A).
Arguments Settle {A} c.
Arguments AwaitFetch {A} url init k.

(** Template literal substitution of an environment variable. *)
Definition template_env (v : option jsstring) : jsstring :=
  match v with
  | Some s => s
  | None => lit "undefined"
  end.

Definition fetchDueTasks (env : Env) (hotelId : jsstring) : Async JSON :=
  AwaitFetch
    (template_env (NEXT_PUBLIC_API_URL env) ++ lit "/api/compliance/due-tasks/" ++ hotelId)
    default_init
    (fun settled =>
       match settled with
       | Throw e => Settle (Throw e)
       | Normal res =>
           if negb (ok res) then Settle (Throw (Error (lit "Failed to fetch due tasks")))
           else Settle (Response_json res)
       end).

Definition acknowledgeNextMonthTask (env : Env) (hotelId taskId : jsstring)
  : Async JSON :=
  AwaitFetch
    (template_env (NEXT_PUBLIC_API_URL env) ++ lit "/api/compliance/acknowledge-task")
    (mkInit (lit "POST")
            [(lit "Content-Type", lit "application/json")]
            (Some (JSON_stringify_record
                     [(lit "hotel_id", hotelId); (lit "task_id", taskId)])))
    (fun settled =>
       match settled with
       | Throw e => Settle (Throw e)
       | Normal res =>
           if negb (ok res) then Settle (Throw (Error (lit "Failed to acknowledge task")))
           else Settle (Response_json res)
       end).

(** Running an async function against an upstream: the requests it
    issued, in order, and how its promise settled. *)
Definition Upstream := jsstring -> RequestInit -> completion Response.

Fixpoint run {A : Type} (upstream : Upstream) (p : Async A)
  : list (jsstring * RequestInit) * completion A :=
  match p with
  | Settle c => ([], c)
  | AwaitFetch url init k =>
      let (requests, c) := run upstream (k (upstream url init)) in
      ((url, init) :: requests, c)
  end.

(** *** Notions of the specification *)

(** A principal: a parsed credential that is an object with a string
    [role]; the role of the principal. *)
Definition principal_role (user : JSON) : option jsstring :=
  match user with
  | JObject members =>
      match last_member (lit "role") members with
      | Some (JString role) => Some role
      | _ => None
      end
  | _ => None
  end.

(** The role contains one of the admin roles as a substring, both taken
    in lower case. *)
Definition contains_admin_role (toLowerCase : jsstring -> jsstring)
    (role : jsstring) : Prop :=
  exists r before after,
    In r adminRoles /\ toLowerCase role = before ++ toLowerCase r ++ after.

(** What [String.prototype.toLowerCase] does on ASCII strings. *)
Definition lowers_ascii (toLowerCase : jsstring -> jsstring) : Prop :=
  forall s, is_ascii s -> toLowerCase s = ascii_toLowerCase s.

(** A response carries the fixed security headers, or none of them. *)
Definition has_security_headers (r : NextResponse) : Prop :=
  forall name value,
    In (name, value) securityHeaders -> Headers_get name (headers r) = Some value.

Definition no_security_headers (r : NextResponse) : Prop :=
  forall name value,
    In (name, value) securityHeaders -> Headers_get name (headers r) = None.

(** The headers of a response that [NextResponse.next()] did not bring. *)
Definition added_headers (r : NextResponse) : Headers :=
  filter (fun h => negb (Headers_has (fst h) (headers NextResponse_next))) (headers r).

(** *** Sample requests and environments *)

Definition development : Env := mkEnv (Some (lit "development")) None.
Definition production : Env := mkEnv (Some (lit "production")) None.

(** A GET request for [path] on example.com with at most the [user] cookie. *)
Definition sample_request (protocol path : string) (user : option jsstring)
  : NextRequest :=
  mkRequest
    (mkNextURL (lit protocol) (lit "example.com") (lit path) [])
    (lit "GET") None
    (match user with Some value => [(lit "user", value)] | None => [] end)
    [].

Definition sample_time : jsstring := lit "2024-01-01T00:00:00.000Z".


(** *** The matcher of [config] *)

(** LineTerminator: LF, CR, LS, PS.  The dot of a regular expression
    matches any character but these. *)
Definition is_line_terminator (c : code_unit) : bool :=
  (c =? 10) || (c =? 13) || (c =? 8232) || (c =? 8233).

(** The alternative [favicon.ico] of the lookahead: its dot is not
    escaped and stands for any one character. *)
Definition starts_with_favicon_ico (s : jsstring) : bool :=
  startsWith s (lit "favicon") &&
  match skipn 7 s with
  | c :: rest => negb (is_line_terminator c) && startsWith rest (lit "ico")
  | [] => false
  end.

(** The negative lookahead [(?!api|_next/static|_next/image|favicon.ico)]
    fails where one of its alternatives matches. *)
Definition matcher_lookahead (s : jsstring) : bool :=
  startsWith s (lit "api") || startsWith s (lit "_next/static")
  || startsWith s (lit "_next/image") || starts_with_favicon_ico s.

(** [config.matcher]: a slash, then a group made of the negative
    lookahead and of a dot under a star, matched against the whole
    pathname, case-sensitively: the rest after the slash is one where the
    lookahead does not match and that holds no line terminator.  The
    middleware runs on the requests whose path matches; for a data route
    the pathname that the middleware then reads is the normalised one,
    which need not be the string that was matched. *)
Definition config_matcher (pathname : jsstring) : bool :=
  match pathname with
  | c :: rest =>
      (c =? ch "/") && negb (matcher_lookahead rest)
      && forallb (fun d => negb (is_line_terminator d)) rest
  | [] => false
  end.

(** *** The decision chain and the requests that follow a redirect *)

(** The decision of the middleware, rule by rule ([decide] of the
    specification); [middleware_decide] below shows that the middleware
    answers with the response of this decision. *)
Definition decide (toLowerCase : jsstring -> jsstring) (env : Env)
    (request : NextRequest) : completion GateDecision :=
  let path := pathname (nextUrl request) in
  let user := getUserFromRequest request in
  if isPublicPath path then Normal Allow
  else if https_enforced env request then Normal RedirectHttps
  else if negb (truthy user) then Normal RedirectLogin
  else if requiresAdminAccess path then
    hasAdminAccess <- some (role_includes toLowerCase user) adminRoles ;;
    Normal (if (hasAdminAccess : bool) then AllowWithHeaders else RedirectDefault)
  else Normal AllowWithHeaders.

(** The serialization of the URL of a request. *)
Definition NextURL_href (u : NextURL) : jsstring :=
  protocol u ++ lit "//" ++ host u ++ pathname u ++ search u.

(** The request a client sends when it follows the redirect of a
    decision: the URL is the one of the Location header; method, address,
    cookies and headers stay (a 307 keeps the method, the host is the same). *)
Definition follow (request : NextRequest) (d : GateDecision) : NextRequest :=
  let u := nextUrl request in
  mkRequest
    match d with
    | RedirectLogin =>
        mkNextURL (protocol u) (host u) (lit "/login")
                  (lit "?redirect=" ++ urlencode (pathname u))
    | RedirectDefault => mkNextURL (protocol u) (host u) (lit "/dashboard") []
    | RedirectHttps => mkNextURL (lit "https:") (host u) (pathname u) (search u)
    | _ => u
    end
    (method request) (ip request) (cookies request) (request_headers request).

(** *** Code units and percent-decoding *)

(** The code units of a JavaScript string are below 2^16. *)
Definition is_jsstring (s : jsstring) : Prop := Forall (fun c => c < 65536) s.

(** The characters that the form-urlencoded serializer leaves in its
    output: ASCII alphanumerics, [* - . _], the plus sign and the percent sign. *)
Definition is_urlencoded_unit (c : code_unit) : bool :=
  is_alnum c || (c =? ch "*") || (c =? ch "-") || (c =? ch ".") || (c =? ch "_")
  || (c =? ch "+") || (c =? ch "%").

(** Percent-decoding with plus as space, as the form-urlencoded parser
    does on a value, up to the bytes (on ASCII bytes the UTF-8 decoding
    that follows changes nothing). *)
Fixpoint urldecode_bytes (s : jsstring) : list N :=
  match s with
  | [] => []
  | c :: rest =>
      if c =? ch "+" then 32 :: urldecode_bytes rest
      else if c =? ch "%" then
        match rest with
        | h1 :: h2 :: rest' =>
            match hex_value h1, hex_value h2 with
            | Some x, Some y => (x * 16 + y) :: urldecode_bytes rest'
            | _, _ => c :: urldecode_bytes rest
            end
        | _ => c :: urldecode_bytes rest
        end
      else c :: urldecode_bytes rest
  end.

(* ================================================================== *)
(** ** Properties of the string functions *)
(* ================================================================== *)

Lemma startsWith_app (p t : jsstring) : startsWith (p ++ t) p = true.
Proof.
  induction p as [|c p IH]; simpl; [reflexivity|].
  now rewrite N.eqb_refl, IH.
Qed.

Lemma startsWith_spec (s p : jsstring) :
  startsWith s p = true <-> exists t, s = p ++ t.
Proof.
  split.
  - revert s. induction p as [|c p IH]; intros s H; simpl in *.
    + now exists s.
    + destruct s as [|d s]; [discriminate|].
      apply andb_true_iff in H as [Hc Hp].
      apply N.eqb_eq in Hc. subst d.
      destruct (IH _ Hp) as [t ->]. now exists t.
  - intros [t ->]. apply startsWith_app.
Qed.

Lemma includes_startsWith (s p : jsstring) :
  startsWith s p = true -> includes s p = true.
Proof. intros H. destruct s; simpl; rewrite H; reflexivity. Qed.

Lemma includes_spec (s p : jsstring) :
  includes s p = true <-> exists a b, s = a ++ p ++ b.
Proof.
  split.
  - induction s as [|c s IH]; simpl; intros H.
    + apply orb_true_iff in H as [H|H]; [|discriminate].
      apply startsWith_spec in H as [t Ht]. exists [], t. exact Ht.
    + apply orb_true_iff in H as [H|H].
      * apply startsWith_spec in H as [t Ht]. exists [], t. exact Ht.
      * destruct (IH H) as (a & b & ->). now exists (c :: a), b.
  - intros (a & b & ->). induction a as [|c a IH]; simpl.
    + apply includes_startsWith, startsWith_app.
    + rewrite IH. apply orb_true_r.
Qed.

Lemma jsstring_eqb_eq (a b : jsstring) : jsstring_eqb a b = true <-> a = b.
Proof.
  unfold jsstring_eqb. destruct (list_eq_dec N.eq_dec a b); split; congruence.
Qed.

Lemma jsstring_eqb_refl (a : jsstring) : jsstring_eqb a a = true.
Proof. now apply jsstring_eqb_eq. Qed.

(* ================================================================== *)
(** ** [JSON.parse] has fuel enough *)
(* ================================================================== *)

Lemma skip_ws_length (s : jsstring) : (length (skip_ws s) <= length s)%nat.
Proof.
  induction s as [|c s IH]; simpl; [lia|].
  destruct (is_ws c); simpl; lia.
Qed.

Lemma skip_ws_cons (s rest : jsstring) (c : code_unit) :
  skip_ws s = c :: rest -> (length rest < length s)%nat.
Proof.
  intros H. pose proof (skip_ws_length s) as L. rewrite H in L. simpl in L. lia.
Qed.

Ltac case_if_in H :=
  match type of H with
  | context [if ?b then _ else _] => destruct b eqn:?
  end.

Ltac case_if :=
  match goal with
  | |- context [if ?b then _ else _] => destruct b eqn:?
  end.

Lemma parse_string_chars_length (n : nat) :
  forall s acc r rest,
    (length s <= n)%nat ->
    parse_string_chars s acc = Parsed r rest -> (length rest < length s)%nat.
Proof.
  induction n as [|n IH]; intros s acc r rest Hn H.
  - destruct s; [discriminate|simpl in Hn; lia].
  - destruct s as [|c s]; [discriminate|]. simpl in Hn, H.
    case_if_in H.
    { injection H as _ <-. simpl. lia. }
    case_if_in H.
    + destruct s as [|e s]; [discriminate|].
      case_if_in H.
      * destruct s as [|h1 [|h2 [|h3 [|h4 s]]]]; try discriminate.
        destruct (hex4 h1 h2 h3 h4); [|discriminate].
        apply IH in H; simpl in *; lia.
      * destruct (simple_escape e); [|discriminate].
        apply IH in H; simpl in *; lia.
    + case_if_in H; [discriminate|].
      apply IH in H; simpl in *; lia.
Qed.

Lemma parse_string_chars_fuel (n : nat) :
  forall s acc, (length s <= n)%nat -> parse_string_chars s acc <> OutOfFuel.
Proof.
  induction n as [|n IH]; intros s acc Hn.
  - destruct s; [discriminate|simpl in Hn; lia].
  - destruct s as [|c s]; [discriminate|]. simpl in Hn |- *.
    case_if; [discriminate|].
    case_if.
    + destruct s as [|e s]; [discriminate|].
      case_if.
      * destruct s as [|h1 [|h2 [|h3 [|h4 s]]]]; try discriminate.
        destruct (hex4 h1 h2 h3 h4); [|discriminate].
        apply IH; simpl in *; lia.
      * destruct (simple_escape e); [|discriminate].
        apply IH; simpl in *; lia.
    + case_if; [discriminate|].
      apply IH; simpl in *; lia.
Qed.

Lemma span_digits_length (s : jsstring) :
  (length (snd (span_digits s)) <= length s)%nat.
Proof.
  induction s as [|c s IH]; simpl; [lia|].
  destruct (is_digit c); simpl; [|lia].
  destruct (span_digits s); simpl in *; lia.
Qed.

Lemma parse_int_length (s : jsstring) ds rest :
  parse_int s = Parsed ds rest -> (length rest < length s)%nat.
Proof.
  destruct s as [|c s]; simpl; [discriminate|].
  pose proof (span_digits_length s) as L.
  destruct (span_digits s) as [d r]. simpl in L.
  repeat case_if; intros H; try discriminate; injection H as _ <-; lia.
Qed.

Lemma parse_frac_length (s : jsstring) ds rest :
  parse_frac s = Parsed ds rest -> (length rest <= length s)%nat.
Proof.
  destruct s as [|c s]; simpl.
  - intros H; injection H as _ <-. simpl; lia.
  - pose proof (span_digits_length s) as L.
    destruct (span_digits s) as [[|d l] r]; simpl in L;
      case_if; intros H; try discriminate; injection H as _ <-; simpl; lia.
Qed.

Lemma span_digits_Parsed {A} (e : A) (s rest : jsstring) :
  match span_digits s with
  | ([], _) => Invalid
  | (_ :: _, r) => Parsed e r
  end = Parsed e rest -> (length rest <= length s)%nat.
Proof.
  pose proof (span_digits_length s) as L.
  destruct (span_digits s) as [[|d l] r]; [discriminate|].
  intros H; injection H as <-. exact L.
Qed.

Lemma parse_exp_length (s : jsstring) e rest :
  parse_exp s = Parsed e rest -> (length rest <= length s)%nat.
Proof.
  destruct s as [|c s]; simpl.
  - intros H; injection H as _ <-. simpl; lia.
  - case_if.
    + destruct s as [|d t].
      * simpl. discriminate.
      * repeat case_if; intros H;
          match type of H with
          | match span_digits ?x with _ => _ end = _ =>
              pose proof (span_digits_length x) as L;
              destruct (span_digits x) as [[|d' l] r]; [discriminate|];
              injection H as _ <-; simpl in *; lia
          end.
    + intros H; injection H as _ <-. simpl; lia.
Qed.

Lemma parse_number_length (s : jsstring) n rest :
  parse_number s = Parsed n rest -> (length rest < length s)%nat.
Proof.
  unfold parse_number. intros H.
  destruct s as [|c t]; [discriminate|].
  case_if_in H;
    destruct (parse_int _) as [ids s2| |] eqn:E1; try discriminate;
    destruct (parse_frac s2) as [fds s3| |] eqn:E2; try discriminate;
    destruct (parse_exp s3) as [e s4| |] eqn:E3; try discriminate;
    injection H as _ <-;
    apply parse_int_length in E1; apply parse_frac_length in E2;
    apply parse_exp_length in E3; simpl in *; lia.
Qed.

Lemma parse_int_fuel (s : jsstring) : parse_int s <> OutOfFuel.
Proof.
  destruct s as [|c s]; simpl; [discriminate|].
  destruct (span_digits s). repeat case_if; discriminate.
Qed.

Lemma parse_frac_fuel (s : jsstring) : parse_frac s <> OutOfFuel.
Proof.
  destruct s as [|c s]; simpl; [discriminate|].
  destruct (span_digits s) as [[|d l] r]; case_if; discriminate.
Qed.

Lemma parse_exp_fuel (s : jsstring) : parse_exp s <> OutOfFuel.
Proof.
  destruct s as [|c s]; simpl; [discriminate|].
  case_if; [|discriminate].
  destruct s as [|d t]; [simpl; discriminate|].
  repeat case_if;
    match goal with
    | |- match span_digits ?x with _ => _ end <> _ =>
        destruct (span_digits x) as [[|d' l] r]; discriminate
    end.
Qed.

Lemma parse_number_fuel (s : jsstring) : parse_number s <> OutOfFuel.
Proof.
  unfold parse_number.
  assert (forall b s1,
            match parse_int s1 with
            | Parsed ids s2 =>
                match parse_frac s2 with
                | Parsed fds s3 =>
                    match parse_exp s3 with
                    | Parsed e s4 =>
                        Parsed (mkNumber b (digits_value (ids ++ fds))
                                         (e - Z.of_nat (length fds))) s4
                    | Invalid => Invalid
                    | OutOfFuel => OutOfFuel
                    end
                | Invalid => Invalid
                | OutOfFuel => OutOfFuel
                end
            | Invalid => Invalid
            | OutOfFuel => OutOfFuel
            end <> OutOfFuel) as K.
  { intros b s1.
    pose proof (parse_int_fuel s1).
    destruct (parse_int s1) as [ids s2| |]; try congruence.
    pose proof (parse_frac_fuel s2).
    destruct (parse_frac s2) as [fds s3| |]; try congruence.
    pose proof (parse_exp_fuel s3).
    destruct (parse_exp s3) as [e s4| |]; congruence. }
  destruct s as [|c t]; [apply K|].
  case_if; apply K.
Qed.

Lemma startsWith_length (s p : jsstring) :
  startsWith s p = true -> (length p <= length s)%nat.
Proof.
  intros H. apply startsWith_spec in H as [t ->]. rewrite length_app. lia.
Qed.

Lemma parse_keyword_length (s : jsstring) v rest :
  parse_keyword s = Parsed v rest -> (length rest < length s)%nat.
Proof.
  unfold parse_keyword. intros H.
  repeat case_if_in H; try discriminate; injection H as _ <-;
    match goal with
    | E : startsWith _ _ = true |- _ =>
        apply startsWith_spec in E as [t ->]; simpl; lia
    end.
Qed.

Lemma parse_keyword_fuel (s : jsstring) : parse_keyword s <> OutOfFuel.
Proof. unfold parse_keyword. repeat case_if; discriminate. Qed.

(** A parsed value, array tail or object tail has consumed input. *)
Lemma parse_length (fuel : nat) :
  (forall s v rest, parse_value fuel s = Parsed v rest ->
                    (length rest < length s)%nat) /\
  (forall s acc v rest, parse_elements fuel s acc = Parsed v rest ->
                        (length rest < length s)%nat) /\
  (forall s acc v rest, parse_members fuel s acc = Parsed v rest ->
                        (length rest < length s)%nat).
Proof.
  induction fuel as [|fuel (IHv & IHe & IHm)];
    [repeat split; intros; discriminate|].
  repeat split.
  - intros s v rest H. simpl in H.
    destruct (skip_ws s) as [|c r] eqn:Es; [discriminate|].
    apply skip_ws_cons in Es.
    repeat case_if_in H.
    + destruct (skip_ws r) as [|c' r'] eqn:Er; [discriminate|].
      apply skip_ws_cons in Er.
      case_if_in H.
      * injection H as _ <-. lia.
      * apply IHm in H. simpl in H. lia.
    + destruct (skip_ws r) as [|c' r'] eqn:Er; [discriminate|].
      apply skip_ws_cons in Er.
      case_if_in H.
      * injection H as _ <-. lia.
      * apply IHe in H. simpl in H. lia.
    + destruct (parse_string_chars r []) as [str r'| |] eqn:E; try discriminate.
      injection H as _ <-.
      apply (parse_string_chars_length (length r)) in E; lia.
    + destruct (parse_number (c :: r)) as [n r'| |] eqn:E; try discriminate.
      injection H as _ <-. apply parse_number_length in E. simpl in E. lia.
    + apply parse_keyword_length in H. simpl in H. lia.
  - intros s acc v rest H. simpl in H.
    destruct (parse_value fuel s) as [w r| |] eqn:E; try discriminate.
    apply IHv in E.
    destruct (skip_ws r) as [|c r'] eqn:Er; [discriminate|].
    apply skip_ws_cons in Er.
    repeat case_if_in H; try discriminate.
    + apply IHe in H. lia.
    + injection H as _ <-. lia.
  - intros s acc v rest H. simpl in H.
    destruct (skip_ws s) as [|q s1] eqn:Es; [discriminate|].
    apply skip_ws_cons in Es.
    case_if_in H; [|discriminate].
    destruct (parse_string_chars s1 []) as [key s2| |] eqn:Ek; try discriminate.
    apply (parse_string_chars_length (length s1)) in Ek; [|lia].
    destruct (skip_ws s2) as [|colon s3] eqn:E2; [discriminate|].
    apply skip_ws_cons in E2.
    case_if_in H; [|discriminate].
    destruct (parse_value fuel s3) as [w r| |] eqn:E; try discriminate.
    apply IHv in E.
    destruct (skip_ws r) as [|c r'] eqn:Er; [discriminate|].
    apply skip_ws_cons in Er.
    repeat case_if_in H; try discriminate.
    + apply IHm in H. lia.
    + injection H as _ <-. lia.
Qed.

(** With fuel for twice the length of the text, the parser does not run out. *)
Lemma parse_fuel (fuel : nat) :
  (forall s, (2 * length s + 1 <= fuel)%nat -> parse_value fuel s <> OutOfFuel) /\
  (forall s acc, (2 * length s + 2 <= fuel)%nat ->
                 parse_elements fuel s acc <> OutOfFuel) /\
  (forall s acc, (2 * length s + 2 <= fuel)%nat ->
                 parse_members fuel s acc <> OutOfFuel).
Proof.
  induction fuel as [|fuel (IHv & IHe & IHm)];
    [repeat split; intros; lia|].
  repeat split.
  - intros s Hf. simpl.
    destruct (skip_ws s) as [|c r] eqn:Es; [discriminate|].
    apply skip_ws_cons in Es.
    repeat case_if.
    + destruct (skip_ws r) as [|c' r'] eqn:Er; [discriminate|].
      apply skip_ws_cons in Er.
      case_if; [discriminate|]. apply IHm. simpl. lia.
    + destruct (skip_ws r) as [|c' r'] eqn:Er; [discriminate|].
      apply skip_ws_cons in Er.
      case_if; [discriminate|]. apply IHe. simpl. lia.
    + pose proof (parse_string_chars_fuel (length r) r [] (le_n _)).
      destruct (parse_string_chars r []); congruence.
    + pose proof (parse_number_fuel (c :: r)).
      destruct (parse_number (c :: r)); congruence.
    + apply parse_keyword_fuel.
  - intros s acc Hf. simpl.
    pose proof (IHv s ltac:(lia)) as Hv.
    destruct (parse_value fuel s) as [w r| |] eqn:E; try congruence.
    apply (proj1 (parse_length fuel)) in E.
    destruct (skip_ws r) as [|c r'] eqn:Er; [discriminate|].
    apply skip_ws_cons in Er.
    repeat case_if; try discriminate.
    apply IHe. lia.
  - intros s acc Hf. simpl.
    destruct (skip_ws s) as [|q s1] eqn:Es; [discriminate|].
    apply skip_ws_cons in Es.
    case_if; [|discriminate].
    pose proof (parse_string_chars_fuel (length s1) s1 [] (le_n _)).
    destruct (parse_string_chars s1 []) as [key s2| |] eqn:Ek; try congruence.
    apply (parse_string_chars_length (length s1)) in Ek; [|lia].
    destruct (skip_ws s2) as [|colon s3] eqn:E2; [discriminate|].
    apply skip_ws_cons in E2.
    case_if; [|discriminate].
    pose proof (IHv s3 ltac:(lia)) as Hv.
    destruct (parse_value fuel s3) as [w r| |] eqn:E; try congruence.
    apply (proj1 (parse_length fuel)) in E.
    destruct (skip_ws r) as [|c r'] eqn:Er; [discriminate|].
    apply skip_ws_cons in Er.
    repeat case_if; try discriminate.
    apply IHm. lia.
Qed.

(** [JSON_parse] never stops for lack of fuel: a text that it rejects is
    one that the grammar rejects. *)
Lemma JSON_parse_fuel_enough (text : jsstring) :
  parse_value (JSON_parse_fuel text) text <> OutOfFuel.
Proof. apply (proj1 (parse_fuel _)). unfold JSON_parse_fuel. lia. Qed.

(* ================================================================== *)
(** ** The decision chain of the middleware *)
(* ================================================================== *)

Lemma urlencode_redirect : urlencode (lit "redirect") = lit "redirect".
Proof. vm_compute. reflexivity. Qed.

(** The Location of the login redirect, written out. *)
Lemma login_href (u : NextURL) :
  href (searchParams_set (lit "redirect") (pathname u) (new_URL (lit "/login") u))
  = protocol u ++ lit "//" ++ host u ++ lit "/login?redirect=" ++ urlencode (pathname u).
Proof.
  unfold href, searchParams_set, new_URL. simpl url_searchParams.
  unfold urlencoded_serialize. rewrite urlencode_redirect.
  simpl. reflexivity.
Qed.

Lemma dashboard_href (u : NextURL) :
  href (new_URL (lit "/dashboard") u)
  = protocol u ++ lit "//" ++ host u ++ lit "/dashboard".
Proof. unfold href, new_URL. simpl. reflexivity. Qed.

Section GateChain.

Variable toLowerCase : jsstring -> jsstring.

(** The result of the middleware, rule by rule, in terms of the gate
    decisions. *)
Lemma middleware_result (env : Env) (now : jsstring) (request : NextRequest) :
  result (middleware toLowerCase env now request) =
  let path := pathname (nextUrl request) in
  let user := getUserFromRequest request in
  if isPublicPath path then Normal (response_of request Allow)
  else if https_enforced env request then Normal (response_of request RedirectHttps)
  else if negb (truthy user) then Normal (response_of request RedirectLogin)
  else if requiresAdminAccess path then
    hasAdminAccess <- some (role_includes toLowerCase user) adminRoles ;;
    Normal (response_of request
              (if (hasAdminAccess : bool) then AllowWithHeaders else RedirectDefault))
  else Normal (response_of request AllowWithHeaders).
Proof.
  unfold middleware, https_enforced. cbv zeta.
  destruct (isPublicPath _); [reflexivity|].
  destruct (_ && _); [reflexivity|].
  cbn [result].
  destruct (negb (truthy _)).
  { cbn [response_of]. rewrite login_href. reflexivity. }
  destruct (requiresAdminAccess _); [|reflexivity].
  destruct (some _ _) as [[|]|e]; cbn [bind negb response_of].
  - reflexivity.
  - rewrite dashboard_href. reflexivity.
  - reflexivity.
Qed.

(** The console: nothing for a public path or an HTTPS redirect, one
    line otherwise. *)
Lemma middleware_console (env : Env) (now : jsstring) (request : NextRequest) :
  console (middleware toLowerCase env now request) =
  if isPublicPath (pathname (nextUrl request)) || https_enforced env request
  then []
  else [now ++ lit " - " ++ method request ++ lit " "
            ++ pathname (nextUrl request) ++ lit " - "
            ++ match ip request with
               | Some (c :: a) => c :: a
               | _ => lit "unknown IP"
               end].
Proof.
  unfold middleware, https_enforced. cbv zeta.
  destruct (isPublicPath _); [reflexivity|].
  destruct (_ && _); reflexivity.
Qed.

(** The admin test for a principal: the search over the admin roles
    finds one exactly when the role contains one. *)
Lemma some_role_includes (user : JSON) (role : jsstring) :
  principal_role user = Some role ->
  some (role_includes toLowerCase user) adminRoles
  = Normal (existsb (fun r => includes (toLowerCase role) (toLowerCase r)) adminRoles).
Proof.
  intros Hp.
  assert (forall r, role_includes toLowerCase user r
                    = Normal (includes (toLowerCase role) (toLowerCase r))) as Hcb.
  { intros r. unfold role_includes, principal_role in *.
    destruct user as [| | | | |members]; try discriminate. cbn [get_role bind].
    destruct (last_member _ members) as [[| | |s| |]|]; try discriminate.
    now injection Hp as ->. }
  induction adminRoles as [|r l IH]; [reflexivity|].
  cbn [some existsb]. rewrite Hcb. cbn [bind].
  destruct (includes _ _); [reflexivity|exact IH].
Qed.

Lemma existsb_contains_admin_role (role : jsstring) :
  existsb (fun r => includes (toLowerCase role) (toLowerCase r)) adminRoles = true
  <-> contains_admin_role toLowerCase role.
Proof.
  rewrite existsb_exists. unfold contains_admin_role. split.
  - intros (r & Hin & Hinc). apply includes_spec in Hinc as (a & b & E).
    now exists r, a, b.
  - intros (r & a & b & Hin & E). exists r. split; [exact Hin|].
    apply includes_spec. now exists a, b.
Qed.

End GateChain.

(** An admin path is never a public path. *)
Lemma admin_not_public (path : jsstring) :
  requiresAdminAccess path = true -> isPublicPath path = false.
Proof.
  unfold requiresAdminAccess. rewrite existsb_exists.
  intros (prefix & Hin & Hs). apply startsWith_spec in Hs as [t ->].
  unfold adminPaths in Hin. simpl in Hin.
  destruct Hin as [<- | [<- | [<- | []]]]; reflexivity.
Qed.

(** The identity extractor reads nothing but the [user] cookie. *)
Lemma getUserFromRequest_cookie (request : NextRequest) :
  getUserFromRequest request =
  match cookies_get (lit "user") (cookies request) with
  | Some value =>
      match JSON_parse value with
      | Normal user => user
      | Throw _ => JNull
      end
  | None => JNull
  end.
Proof.
  unfold getUserFromRequest, getUserFromRequest_try.
  destruct (cookies_get _ _); reflexivity.
Qed.

Lemma principal_truthy (user : JSON) (role : jsstring) :
  principal_role user = Some role -> truthy user = true.
Proof. destruct user; simpl; intros H; try discriminate; reflexivity. Qed.

Lemma classify_admin (path : jsstring) :
  classify path = AdminProtected <->
  isPublicPath path = false /\ requiresAdminAccess path = true.
Proof.
  unfold classify.
  destruct (isPublicPath path), (requiresAdminAccess path);
    intuition congruence.
Qed.

Lemma response_of_nextUrl (request request' : NextRequest) (d : GateDecision) :
  nextUrl request = nextUrl request' ->
  response_of request d = response_of request' d.
Proof. unfold response_of. now intros ->. Qed.

(** The responses of distinct kinds differ: a pass-through has status 200
    and a redirect 307, and only one pass-through has the added headers. *)
Lemma response_of_status (request : NextRequest) (d : GateDecision) :
  status (response_of request d) =
  match d with
  | Allow | AllowWithHeaders => 200
  | _ => 307
  end.
Proof. destruct d; reflexivity. Qed.

Lemma lowers_ascii_lit (toLowerCase : jsstring -> jsstring) (s : string) :
  lowers_ascii toLowerCase ->
  forallb (fun c => c <? 128) (lit s) = true ->
  toLowerCase (lit s) = ascii_toLowerCase (lit s).
Proof.
  intros Hlc Hs. apply Hlc. unfold is_ascii. apply Forall_forall.
  intros c Hc. rewrite forallb_forall in Hs. now apply N.ltb_lt, Hs.
Qed.

(** The admin test on a role of ASCII characters, computed. *)
Lemma some_role_includes_ascii (toLowerCase : jsstring -> jsstring)
    (user : JSON) (role : string) :
  lowers_ascii toLowerCase ->
  principal_role user = Some (lit role) ->
  forallb (fun c => c <? 128) (lit role) = true ->
  some (role_includes toLowerCase user) adminRoles
  = Normal (existsb (fun r => includes (ascii_toLowerCase (lit role)) r) adminRoles).
Proof.
  intros Hlc Hp Hr. rewrite (some_role_includes toLowerCase user (lit role) Hp).
  rewrite (lowers_ascii_lit toLowerCase role Hlc Hr).
  unfold adminRoles. cbn [existsb].
  rewrite !(lowers_ascii_lit toLowerCase _ Hlc) by reflexivity.
  reflexivity.
Qed.

(* ================================================================== *)
(** ** The claims *)
(* ================================================================== *)

(** C1, as amended.  For a request whose path is admin-protected, whose
    [user] cookie parses to a principal, and on which HTTPS enforcement
    does not apply, the middleware passes the request through with the
    security headers exactly when the lower-cased role of the principal
    contains one of the lower-cased admin roles as a substring, and
    redirects to /dashboard exactly when it does not.  Under the same
    proviso, /admin/settings with the credential of role Admin is passed
    through, and /users with the credential of role staff is redirected to
    /dashboard. *)
Theorem admin_gate_by_role (toLowerCase : jsstring -> jsstring)
    (Hlc : lowers_ascii toLowerCase) :
  (forall env now request value user role,
      classify (pathname (nextUrl request)) = AdminProtected ->
      cookies_get (lit "user") (cookies request) = Some value ->
      JSON_parse value = Normal user ->
      principal_role user = Some role ->
      https_enforced env request = false ->
      (contains_admin_role toLowerCase role <->
       result (middleware toLowerCase env now request)
       = Normal (response_of request AllowWithHeaders)) /\
      (~ contains_admin_role toLowerCase role <->
       result (middleware toLowerCase env now request)
       = Normal (response_of request RedirectDefault))) /\
  (forall env now request,
      pathname (nextUrl request) = lit "/admin/settings" ->
      cookies_get (lit "user") (cookies request) = Some (jlit "{'role':'Admin'}") ->
      https_enforced env request = false ->
      result (middleware toLowerCase env now request)
      = Normal (response_of request AllowWithHeaders)) /\
  (forall env now request,
      pathname (nextUrl request) = lit "/users" ->
      cookies_get (lit "user") (cookies request) = Some (jlit "{'role':'staff'}") ->
      https_enforced env request = false ->
      result (middleware toLowerCase env now request)
      = Normal (NextResponse_redirect
                  (protocol (nextUrl request) ++ lit "//" ++ host (nextUrl request)
                     ++ lit "/dashboard"))).
Proof.
  split; [|split].
  - intros env now request value user role Hc Hck Hparse Hrole Hhttps.
    apply classify_admin in Hc as [Hpub Hadm].
    rewrite middleware_result. cbv zeta.
    rewrite Hpub, Hhttps, Hadm, getUserFromRequest_cookie, Hck, Hparse.
    rewrite (principal_truthy user role Hrole). cbn [negb].
    rewrite (some_role_includes toLowerCase user role Hrole). cbn [bind].
    pose proof (existsb_contains_admin_role toLowerCase role) as Hex.
    destruct (existsb _ adminRoles).
    + split; split; try reflexivity.
      * intros _. now apply Hex.
      * intros Hn. exfalso. apply Hn. now apply Hex.
      * intros H. injection H as H. discriminate.
    + assert (~ contains_admin_role toLowerCase role) as Hn.
      { intros H. apply Hex in H. discriminate. }
      split; split; try reflexivity; try (intros; exact Hn).
      * intros H. contradiction.
      * intros H. injection H as H. discriminate.
  - intros env now request Hpath Hck Hhttps.
    rewrite middleware_result. cbv zeta.
    rewrite Hpath, Hhttps, getUserFromRequest_cookie, Hck.
    change (isPublicPath (lit "/admin/settings")) with false.
    change (requiresAdminAccess (lit "/admin/settings")) with true.
    change (JSON_parse (jlit "{'role':'Admin'}"))
      with (Normal (JObject [(lit "role", JString (lit "Admin"))])).
    cbn [negb truthy].
    rewrite (some_role_includes_ascii toLowerCase _ "Admin" Hlc) by reflexivity.
    reflexivity.
  - intros env now request Hpath Hck Hhttps.
    rewrite middleware_result. cbv zeta.
    rewrite Hpath, Hhttps, getUserFromRequest_cookie, Hck.
    change (isPublicPath (lit "/users")) with false.
    change (requiresAdminAccess (lit "/users")) with true.
    change (JSON_parse (jlit "{'role':'staff'}"))
      with (Normal (JObject [(lit "role", JString (lit "staff"))])).
    cbn [negb truthy].
    rewrite (some_role_includes_ascii toLowerCase _ "staff" Hlc) by reflexivity.
    reflexivity.
Qed.

Lemma ascii_toLowerCase_lowers : lowers_ascii ascii_toLowerCase.
Proof. intros s _. reflexivity. Qed.

(** The general statement of C1 at the request for /admin/settings over
    http outside production, with the credential of role Admin. *)
Lemma admin_gate_by_role_witness :
  result (middleware ascii_toLowerCase development sample_time
            (sample_request "http:" "/admin/settings" (Some (jlit "{'role':'Admin'}"))))
  = Normal (response_of
              (sample_request "http:" "/admin/settings" (Some (jlit "{'role':'Admin'}")))
              AllowWithHeaders).
Proof.
  refine (proj1 (proj1 (proj1 (admin_gate_by_role ascii_toLowerCase
                                 ascii_toLowerCase_lowers)
                          development sample_time
                          (sample_request "http:" "/admin/settings"
                             (Some (jlit "{'role':'Admin'}")))
                          (jlit "{'role':'Admin'}")
                          (JObject [(lit "role", JString (lit "Admin"))])
                          (lit "Admin") _ _ _ _ _)) _).
  - reflexivity.
  - reflexivity.
  - reflexivity.
  - reflexivity.
  - reflexivity.
  - exists (lit "admin"), [], []. split; [simpl; tauto | reflexivity].
Defined.

(** C1 as stated fails in production over http: the admin path with the
    credential of role Admin is redirected to https, not passed through. *)
Lemma admin_gate_by_role_counterexample :
  classify (lit "/admin/settings") = AdminProtected /\
  JSON_parse (jlit "{'role':'Admin'}")
    = Normal (JObject [(lit "role", JString (lit "Admin"))]) /\
  principal_role (JObject [(lit "role", JString (lit "Admin"))]) = Some (lit "Admin") /\
  result (middleware ascii_toLowerCase production sample_time
            (sample_request "http:" "/admin/settings" (Some (jlit "{'role':'Admin'}"))))
    = Normal (NextResponse_redirect (lit "https://example.com/admin/settings")) /\
  result (middleware ascii_toLowerCase production sample_time
            (sample_request "http:" "/admin/settings" (Some (jlit "{'role':'Admin'}"))))
    <> Normal (response_of
                 (sample_request "http:" "/admin/settings" (Some (jlit "{'role':'Admin'}")))
                 AllowWithHeaders).
Proof. repeat split; try reflexivity. vm_compute. discriminate. Qed.

(** C2, the failing inputs.  On an admin path, when HTTPS enforcement does
    not apply, a [user] cookie that parses to an object whose role is
    present and is neither null nor a string makes the middleware throw a
    TypeError: the optional chain guards only an absent role, and the
    call of [toLowerCase] on the role fails.  No gate decision is made. *)
Theorem non_string_role_throws (toLowerCase : jsstring -> jsstring)
    (env : Env) (now : jsstring) (request : NextRequest)
    (value : jsstring) (members : list (jsstring * JSON)) (v : JSON) :
  classify (pathname (nextUrl request)) = AdminProtected ->
  https_enforced env request = false ->
  cookies_get (lit "user") (cookies request) = Some value ->
  JSON_parse value = Normal (JObject members) ->
  last_member (lit "role") members = Some v ->
  v <> JNull ->
  (forall s, v <> JString s) ->
  result (middleware toLowerCase env now request)
    = Throw (TypeError (lit "user.role?.toLowerCase is not a function")) /\
  forall d, result (middleware toLowerCase env now request)
            <> Normal (response_of request d).
Proof.
  intros Hc Hhttps Hck Hparse Hrole Hnull Hstr.
  apply classify_admin in Hc as [Hpub Hadm].
  assert (result (middleware toLowerCase env now request)
          = Throw (TypeError (lit "user.role?.toLowerCase is not a function"))) as H.
  { rewrite middleware_result. cbv zeta.
    rewrite Hpub, Hhttps, Hadm, getUserFromRequest_cookie, Hck, Hparse.
    cbn [truthy negb]. unfold adminRoles. cbn [some].
    unfold role_includes at 1. cbn [get_role bind]. rewrite Hrole.
    destruct v as [|b|n|s|l|m]; try reflexivity.
    - contradiction.
    - exfalso. now apply (Hstr s). }
  split; [exact H|]. intros d. rewrite H. discriminate.
Qed.

(** The failing input of C2: outside production, the request for /admin
    with the [user] cookie of an object whose role is the number 1. *)
Lemma non_string_role_throws_witness :
  result (middleware ascii_toLowerCase development sample_time
            (sample_request "http:" "/admin" (Some (jlit "{'role':1}"))))
  = Throw (TypeError (lit "user.role?.toLowerCase is not a function")).
Proof.
  refine (proj1 (non_string_role_throws ascii_toLowerCase development sample_time
                   (sample_request "http:" "/admin" (Some (jlit "{'role':1}")))
                   (jlit "{'role':1}")
                   [(lit "role", JNumber (mkNumber false 1 0))]
                   (JNumber (mkNumber false 1 0)) _ _ _ _ _ _ _));
    try reflexivity; try discriminate.
Defined.

(** The log line is written before the throw. *)
Example non_string_role_outcome (toLowerCase : jsstring -> jsstring) (now : jsstring) :
  middleware toLowerCase development now
    (sample_request "http:" "/admin" (Some (jlit "{'role':1}")))
  = mkOutcome [now ++ lit " - GET /admin - unknown IP"]
              (Throw (TypeError (lit "user.role?.toLowerCase is not a function"))).
Proof. reflexivity. Qed.

(** When the middleware throws: exactly on an admin path that passes the
    public and HTTPS rules with a truthy credential whose role is present,
    not null and not a string. *)
Lemma middleware_throws_iff (toLowerCase : jsstring -> jsstring)
    (env : Env) (now : jsstring) (request : NextRequest) :
  (exists e, result (middleware toLowerCase env now request) = Throw e) <->
  isPublicPath (pathname (nextUrl request)) = false /\
  https_enforced env request = false /\
  truthy (getUserFromRequest request) = true /\
  requiresAdminAccess (pathname (nextUrl request)) = true /\
  exists v, get_role (getUserFromRequest request) = Normal (Some v) /\
            v <> JNull /\ forall s, v <> JString s.
Proof.
  rewrite middleware_result. cbv zeta.
  destruct (isPublicPath _).
  { split; [intros [e H]; discriminate | intros (H & _); discriminate]. }
  destruct (https_enforced _ _).
  { split; [intros [e H]; discriminate | intros (_ & H & _); discriminate]. }
  destruct (truthy (getUserFromRequest request)) eqn:Ht; cbn [negb].
  2:{ split; [intros [e H]; discriminate | intros (_ & _ & H & _); discriminate]. }
  destruct (requiresAdminAccess _).
  2:{ split; [intros [e H]; discriminate | intros (_ & _ & _ & H & _); discriminate]. }
  destruct (getUserFromRequest request) as [| | | | |members] eqn:Eu;
    try discriminate Ht.
  1-4: split; [ intros [e H]; vm_compute in H; discriminate
              | intros (_ & _ & _ & _ & v & H & _); discriminate ].
  unfold adminRoles. cbn [some]. unfold role_includes at 1. cbn [get_role bind].
  destruct (last_member (lit "role") members) as [v|] eqn:El.
  2:{ unfold role_includes. cbn [get_role bind]. rewrite El. cbn [bind].
      split; [intros [e H]; discriminate
             | intros (_ & _ & _ & _ & v & H & _); discriminate]. }
  destruct v as [|b|n|s|l|m].
  - unfold role_includes. cbn [get_role bind]. rewrite El. cbn [bind].
    split; [intros [e H]; discriminate|].
    intros (_ & _ & _ & _ & v & H & Hn & _). injection H as <-. contradiction.
  - split; [intros _|intros _; eexists; reflexivity].
    repeat split; try reflexivity. eexists. repeat split; try discriminate.
  - split; [intros _|intros _; eexists; reflexivity].
    repeat split; try reflexivity. eexists. repeat split; try discriminate.
  - split.
    + intros [e H]. exfalso. cbn [bind] in H.
      unfold role_includes in H. cbn [get_role bind] in H. rewrite El in H.
      repeat (destruct (includes _ _) in H; cbn [bind] in H; try discriminate).
    + intros (_ & _ & _ & _ & v & H & _ & Hs). injection H as <-.
      exfalso. now apply (Hs s).
  - split; [intros _|intros _; eexists; reflexivity].
    repeat split; try reflexivity. eexists. repeat split; try discriminate.
  - split; [intros _|intros _; eexists; reflexivity].
    repeat split; try reflexivity. eexists. repeat split; try discriminate.
Qed.

(** Every normal result of the middleware is the response of a decision. *)
Lemma middleware_decides (toLowerCase : jsstring -> jsstring)
    (env : Env) (now : jsstring) (request : NextRequest) (resp : NextResponse) :
  result (middleware toLowerCase env now request) = Normal resp ->
  exists d, resp = response_of request d.
Proof.
  rewrite middleware_result. cbv zeta.
  repeat case_if;
    try (destruct (some _ _) as [[|]|e]; cbn [bind]; [| |discriminate]);
    intros H; injection H as <-;
    solve [ now exists Allow | now exists AllowWithHeaders | now exists RedirectLogin
          | now exists RedirectDefault | now exists RedirectHttps ].
Qed.

Lemma security_headers_of_decision (request : NextRequest) (d : GateDecision) :
  (d = AllowWithHeaders ->
   has_security_headers (response_of request d) /\
   added_headers (response_of request d) = securityHeaders) /\
  (d <> AllowWithHeaders -> no_security_headers (response_of request d)).
Proof.
  split.
  - intros ->. split; [|reflexivity].
    intros name value Hin. simpl in Hin.
    repeat (destruct Hin as [Hin|Hin];
            [injection Hin as <- <-; reflexivity|]).
    contradiction.
  - intros Hd name value Hin. simpl in Hin.
    destruct d; try contradiction;
      repeat (destruct Hin as [Hin|Hin];
              [injection Hin as <- <-; reflexivity|]);
      contradiction.
Qed.

(** C3, as amended.  On the response that the middleware returns: a
    pass-through (status 200) on a path that is not public is the
    AllowWithHeaders response, it carries all 4 fixed security headers
    with their values, and these four are all that the middleware added
    to it; the response for a public path is the Allow response and
    carries none of the four; a redirect (status 307) is one of the three
    redirect responses and carries none of the four.  Every response is
    a pass-through or a redirect. *)
Theorem security_headers_by_decision (toLowerCase : jsstring -> jsstring)
    (env : Env) (now : jsstring) (request : NextRequest) (resp : NextResponse) :
  result (middleware toLowerCase env now request) = Normal resp ->
  let fixed :=
    [ (lit "X-Frame-Options", lit "DENY");
      (lit "X-Content-Type-Options", lit "nosniff");
      (lit "Referrer-Policy", lit "strict-origin-when-cross-origin");
      (lit "X-XSS-Protection", lit "1; mode=block") ] in
  let carries_all :=
    forall name value,
      In (name, value) fixed -> Headers_get name (headers resp) = Some value in
  let carries_none :=
    forall name value,
      In (name, value) fixed -> Headers_get name (headers resp) = None in
  (isPublicPath (pathname (nextUrl request)) = false ->
   status resp = 200 ->
   resp = response_of request AllowWithHeaders /\
   carries_all /\
   map fst (added_headers resp) = map (fun h => ascii_toLowerCase (fst h)) fixed /\
   length (added_headers resp) = 4%nat) /\
  (isPublicPath (pathname (nextUrl request)) = true ->
   resp = response_of request Allow /\ status resp = 200 /\ carries_none) /\
  (status resp = 307 ->
   (resp = response_of request RedirectLogin
    \/ resp = response_of request RedirectDefault
    \/ resp = response_of request RedirectHttps) /\
   carries_none) /\
  (status resp = 200 \/ status resp = 307).
Proof.
  intros H. cbv zeta.
  rewrite middleware_result in H. cbv zeta in H.
  assert (forall url name value,
             In (name, value)
                [ (lit "X-Frame-Options", lit "DENY");
                  (lit "X-Content-Type-Options", lit "nosniff");
                  (lit "Referrer-Policy", lit "strict-origin-when-cross-origin");
                  (lit "X-XSS-Protection", lit "1; mode=block") ] ->
             Headers_get name (headers (NextResponse_redirect url)) = None
             /\ Headers_get name (headers NextResponse_next) = None
             /\ Headers_get name (headers (response_of request AllowWithHeaders))
                = Some value) as Hfixed.
  { intros url name value Hin. simpl in Hin.
    repeat (destruct Hin as [Hin|Hin];
            [injection Hin as <- <-; repeat split; reflexivity|]).
    contradiction. }
  destruct (isPublicPath (pathname (nextUrl request))) eqn:Hpub.
  { (* the public rule *)
    injection H as <-. split; [discriminate|].
    split; [|split; [discriminate|left; reflexivity]].
    intros _. split; [reflexivity|]. split; [reflexivity|].
    intros name value Hin.
    exact (proj1 (proj2 (Hfixed [] name value Hin))). }
  (* past the public rule: a redirect, or the response with the headers *)
  assert (resp = response_of request AllowWithHeaders
          \/ resp = response_of request RedirectLogin
          \/ resp = response_of request RedirectDefault
          \/ resp = response_of request RedirectHttps) as Hresp.
  { destruct (https_enforced env request); [injection H as <-; tauto|].
    destruct (negb (truthy (getUserFromRequest request)));
      [injection H as <-; tauto|].
    destruct (requiresAdminAccess (pathname (nextUrl request)));
      [|injection H as <-; tauto].
    destruct (some _ _) as [[|]|e]; cbn [bind] in H; try discriminate H;
      injection H as <-; tauto. }
  clear H.
  destruct Hresp as [-> | Hredirect].
  - split; [|split; [discriminate|split; [discriminate|left; reflexivity]]].
    intros _ _. split; [reflexivity|]. split; [|split; reflexivity].
    intros name value Hin. exact (proj2 (proj2 (Hfixed [] name value Hin))).
  - assert (status resp = 307) as Hst
      by (destruct Hredirect as [-> | [-> | ->]]; reflexivity).
    split; [intros _ Hs; rewrite Hs in Hst; discriminate Hst|].
    split; [discriminate|]. split; [|now right].
    intros _. split; [exact Hredirect|].
    intros name value Hin.
    destruct Hredirect as [-> | [-> | ->]];
      exact (proj1 (Hfixed _ name value Hin)).
Qed.

(** The amended C3 at the request for /dashboard with the credential of
    role staff: the response of the middleware carries the four headers. *)
Lemma security_headers_by_decision_witness :
  Headers_get (lit "Referrer-Policy")
    (headers
       (mkResponse 200
          [ (lit "x-middleware-next", lit "1");
            (lit "x-frame-options", lit "DENY");
            (lit "x-content-type-options", lit "nosniff");
            (lit "referrer-policy", lit "strict-origin-when-cross-origin");
            (lit "x-xss-protection", lit "1; mode=block") ]))
  = Some (lit "strict-origin-when-cross-origin").
Proof.
  refine (proj1 (proj2 (proj1 (security_headers_by_decision
                                 ascii_toLowerCase development sample_time
                                 (sample_request "http:" "/dashboard"
                                    (Some (jlit "{'role':'staff'}")))
                                 _ _) _ _))
            (lit "Referrer-Policy") (lit "strict-origin-when-cross-origin") _).
  - reflexivity.
  - reflexivity.
  - reflexivity.
  - simpl. tauto.
Defined.

(** C3 as stated fails on the count: the response that the middleware
    passes through for /dashboard with the credential of role staff
    carries the 4 security headers that the middleware sets, not 5. *)
Lemma security_headers_by_decision_counterexample :
  exists resp,
    result (middleware ascii_toLowerCase development sample_time
              (sample_request "http:" "/dashboard" (Some (jlit "{'role':'staff'}"))))
    = Normal resp /\
    status resp = 200 /\
    map fst (added_headers resp)
    = [lit "x-frame-options"; lit "x-content-type-options";
       lit "referrer-policy"; lit "x-xss-protection"] /\
    length (added_headers resp) = 4%nat /\
    4%nat <> 5%nat.
Proof. eexists. repeat split; try reflexivity. discriminate. Qed.

(** C4, as amended.  In production, a request on a path that is not
    public and that arrives over plain http is redirected to the same
    host, path and query under https, whatever its cookies, method,
    address and headers are; nothing is written to the console. *)
Theorem https_redirect_before_identity (toLowerCase : jsstring -> jsstring)
    (env : Env) (now : jsstring) (url : NextURL) (m : jsstring)
    (i : option jsstring) (c : list (jsstring * jsstring)) (h : Headers) :
  NODE_ENV env = Some (lit "production") ->
  protocol url = lit "http:" ->
  isPublicPath (pathname url) = false ->
  middleware toLowerCase env now (mkRequest url m i c h)
  = mkOutcome []
      (Normal (NextResponse_redirect
                 (lit "https://" ++ host url ++ pathname url ++ search url))).
Proof.
  intros Henv Hproto Hpub. unfold middleware. cbn [nextUrl]. cbv zeta.
  rewrite Hpub, Henv, Hproto. reflexivity.
Qed.

Lemma https_redirect_before_identity_witness :
  middleware ascii_toLowerCase production sample_time
    (sample_request "http:" "/admin" (Some (jlit "{'role':1}")))
  = mkOutcome [] (Normal (NextResponse_redirect (lit "https://example.com/admin"))).
Proof.
  apply (https_redirect_before_identity ascii_toLowerCase production sample_time
           (mkNextURL (lit "http:") (lit "example.com") (lit "/admin") [])
           (lit "GET") None [(lit "user", jlit "{'role':1}")] []);
    reflexivity.
Defined.

(** C4 as stated fails on a public path: in production, /login over http
    is passed through, not redirected to https. *)
Lemma https_redirect_before_identity_counterexample :
  NODE_ENV production = Some (lit "production") /\
  protocol (nextUrl (sample_request "http:" "/login" None)) = lit "http:" /\
  middleware ascii_toLowerCase production sample_time
    (sample_request "http:" "/login" None)
  = mkOutcome [] (Normal NextResponse_next) /\
  status NextResponse_next = 200 /\
  status (response_of (sample_request "http:" "/login" None) RedirectHttps) = 307.
Proof. repeat split; reflexivity. Qed.

(** C5, as amended.  A request without [user] cookie on a path that is not
    public, on which HTTPS enforcement does not apply, is redirected to
    the URL /login on the host of the request whose [redirect] parameter
    is the path of the request; for /users/42 the Location ends with
    /login?redirect=%2Fusers%2F42. *)
Theorem no_credential_redirects_to_login (toLowerCase : jsstring -> jsstring)
    (env : Env) (now : jsstring) (request : NextRequest) :
  cookies_get (lit "user") (cookies request) = None ->
  isPublicPath (pathname (nextUrl request)) = false ->
  https_enforced env request = false ->
  let loginUrl :=
    searchParams_set (lit "redirect") (pathname (nextUrl request))
                     (new_URL (lit "/login") (nextUrl request)) in
  result (middleware toLowerCase env now request)
    = Normal (NextResponse_redirect (href loginUrl)) /\
  url_pathname loginUrl = lit "/login" /\
  searchParams_get (lit "redirect") (url_searchParams loginUrl)
    = Some (pathname (nextUrl request)) /\
  (pathname (nextUrl request) = lit "/users/42" ->
   href loginUrl = protocol (nextUrl request) ++ lit "//" ++ host (nextUrl request)
                     ++ lit "/login?redirect=%2Fusers%2F42").
Proof.
  intros Hck Hpub Hhttps loginUrl. subst loginUrl.
  rewrite middleware_result. cbv zeta.
  rewrite Hpub, Hhttps, getUserFromRequest_cookie, Hck. cbn [negb truthy response_of].
  rewrite login_href. split; [reflexivity|]. split; [reflexivity|].
  split; [reflexivity|]. intros ->. reflexivity.
Qed.

Lemma no_credential_redirects_to_login_witness :
  result (middleware ascii_toLowerCase development sample_time
            (sample_request "http:" "/users/42" None))
  = Normal (NextResponse_redirect
              (lit "http://example.com/login?redirect=%2Fusers%2F42")).
Proof.
  apply (no_credential_redirects_to_login ascii_toLowerCase development sample_time
           (sample_request "http:" "/users/42" None)); reflexivity.
Defined.

(** C5 as stated fails in production over http: /users/42 without
    credential is redirected to https, not to the login page. *)
Lemma no_credential_redirects_to_login_counterexample :
  cookies_get (lit "user") (cookies (sample_request "http:" "/users/42" None)) = None /\
  isPublicPath (lit "/users/42") = false /\
  result (middleware ascii_toLowerCase production sample_time
            (sample_request "http:" "/users/42" None))
  = Normal (NextResponse_redirect (lit "https://example.com/users/42")) /\
  response_of (sample_request "http:" "/users/42" None) RedirectLogin
  = NextResponse_redirect (lit "http://example.com/login?redirect=%2Fusers%2F42").
Proof. repeat split; reflexivity. Qed.

(** C6.  A path that starts with one of the public prefixes is classified
    Public, and the middleware passes the request through without security
    headers and without console output, whatever the environment, the
    scheme and the cookies are.  This includes /loginX. *)
Theorem public_prefix_allows (toLowerCase : jsstring -> jsstring)
    (env : Env) (now : jsstring) (request : NextRequest) (prefix : jsstring) :
  In prefix publicPaths ->
  startsWith (pathname (nextUrl request)) prefix = true ->
  classify (pathname (nextUrl request)) = Public /\
  middleware toLowerCase env now request
    = mkOutcome [] (Normal (response_of request Allow)) /\
  no_security_headers (response_of request Allow) /\
  startsWith (lit "/loginX") (lit "/login") = true.
Proof.
  intros Hin Hs.
  assert (isPublicPath (pathname (nextUrl request)) = true) as Hpub.
  { unfold isPublicPath. apply existsb_exists. now exists prefix. }
  split; [unfold classify; now rewrite Hpub|].
  split; [unfold middleware; cbv zeta; now rewrite Hpub|].
  split; [|reflexivity].
  apply security_headers_of_decision. discriminate.
Qed.

Lemma public_prefix_allows_witness :
  middleware ascii_toLowerCase production sample_time
    (sample_request "http:" "/loginX" (Some (jlit "{'role':1}")))
  = mkOutcome [] (Normal NextResponse_next).
Proof.
  refine (proj1 (proj2 (public_prefix_allows ascii_toLowerCase production sample_time
                          (sample_request "http:" "/loginX" (Some (jlit "{'role':1}")))
                          (lit "/login") _ _))).
  - simpl. tauto.
  - reflexivity.
Defined.

(** C7.  A request whose [user] cookie is not a JSON text has the outcome
    of the same request without the cookie, and the middleware does not
    throw on it. *)
Theorem malformed_credential_is_no_credential (toLowerCase : jsstring -> jsstring)
    (env : Env) (now : jsstring) (url : NextURL) (m : jsstring)
    (i : option jsstring) (c c0 : list (jsstring * jsstring)) (h : Headers)
    (value : jsstring) (e : JSError) :
  cookies_get (lit "user") c = Some value ->
  JSON_parse value = Throw e ->
  cookies_get (lit "user") c0 = None ->
  middleware toLowerCase env now (mkRequest url m i c h)
    = middleware toLowerCase env now (mkRequest url m i c0 h) /\
  exists resp,
    result (middleware toLowerCase env now (mkRequest url m i c h)) = Normal resp.
Proof.
  intros Hc Hparse Hc0.
  assert (getUserFromRequest (mkRequest url m i c h) = JNull) as Hu.
  { rewrite getUserFromRequest_cookie. cbn [cookies]. now rewrite Hc, Hparse. }
  assert (getUserFromRequest (mkRequest url m i c0 h) = JNull) as Hu0.
  { rewrite getUserFromRequest_cookie. cbn [cookies]. now rewrite Hc0. }
  split.
  - unfold middleware. rewrite Hu, Hu0. reflexivity.
  - rewrite middleware_result. cbv zeta. rewrite Hu. cbn [truthy negb].
    repeat case_if; eexists; reflexivity.
Qed.

Lemma malformed_credential_is_no_credential_witness :
  middleware ascii_toLowerCase development sample_time
    (sample_request "http:" "/admin" (Some (jlit "{'role':'admin'")))
  = middleware ascii_toLowerCase development sample_time
      (sample_request "http:" "/admin" None).
Proof.
  refine (proj1 (malformed_credential_is_no_credential
                   ascii_toLowerCase development sample_time
                   (mkNextURL (lit "http:") (lit "example.com") (lit "/admin") [])
                   (lit "GET") None [(lit "user", jlit "{'role':'admin'")] [] []
                   (jlit "{'role':'admin'")
                   (SyntaxError (lit "Unexpected token in JSON")) _ _ _));
    reflexivity.
Defined.

(** A credential that parses to a falsy value is no credential. *)
Lemma falsy_user_cookie (toLowerCase : jsstring -> jsstring)
    (env : Env) (now : jsstring) (url : NextURL) (m : jsstring)
    (i : option jsstring) (c c0 : list (jsstring * jsstring)) (h : Headers)
    (value : jsstring) (user : JSON) :
  cookies_get (lit "user") c = Some value ->
  JSON_parse value = Normal user ->
  truthy user = false ->
  cookies_get (lit "user") c0 = None ->
  middleware toLowerCase env now (mkRequest url m i c h)
    = middleware toLowerCase env now (mkRequest url m i c0 h).
Proof.
  intros Hc Hparse Hf Hc0.
  assert (getUserFromRequest (mkRequest url m i c h) = user) as Hu.
  { rewrite getUserFromRequest_cookie. cbn [cookies]. now rewrite Hc, Hparse. }
  assert (getUserFromRequest (mkRequest url m i c0 h) = JNull) as Hu0.
  { rewrite getUserFromRequest_cookie. cbn [cookies]. now rewrite Hc0. }
  unfold middleware. rewrite Hu, Hu0, Hf. reflexivity.
Qed.

(** C8, as amended.  Each of the cookie values null, false, 0 and the
    empty JSON string parses to a falsy value, and a request with such a
    [user] cookie has the outcome of the same request without the cookie;
    on a path that is not public, when HTTPS enforcement does not apply,
    this is the redirect to the login page. *)
Theorem falsy_credential_is_no_credential (toLowerCase : jsstring -> jsstring)
    (env : Env) (now : jsstring) (url : NextURL) (m : jsstring)
    (i : option jsstring) (c c0 : list (jsstring * jsstring)) (h : Headers)
    (value : jsstring) :
  In value [jlit "null"; jlit "false"; jlit "0"; jlit "''"] ->
  cookies_get (lit "user") c = Some value ->
  cookies_get (lit "user") c0 = None ->
  (exists user, JSON_parse value = Normal user /\ truthy user = false) /\
  middleware toLowerCase env now (mkRequest url m i c h)
    = middleware toLowerCase env now (mkRequest url m i c0 h) /\
  (isPublicPath (pathname url) = false ->
   https_enforced env (mkRequest url m i c h) = false ->
   result (middleware toLowerCase env now (mkRequest url m i c h))
   = Normal (response_of (mkRequest url m i c h) RedirectLogin)).
Proof.
  intros Hin Hc Hc0.
  assert (exists user, JSON_parse value = Normal user /\ truthy user = false)
    as (user & Hparse & Hf).
  { simpl in Hin.
    destruct Hin as [<- | [<- | [<- | [<- | []]]]]; eexists; split; reflexivity. }
  split; [now exists user|].
  split; [exact (falsy_user_cookie _ _ _ _ _ _ _ _ _ _ _ Hc Hparse Hf Hc0)|].
  intros Hpub Hhttps. rewrite middleware_result. cbv zeta. cbn [nextUrl].
  rewrite Hpub, Hhttps, getUserFromRequest_cookie. cbn [cookies].
  rewrite Hc, Hparse, Hf. reflexivity.
Qed.

Lemma falsy_credential_is_no_credential_witness :
  result (middleware ascii_toLowerCase development sample_time
            (sample_request "http:" "/users/42" (Some (jlit "0"))))
  = Normal (NextResponse_redirect
              (lit "http://example.com/login?redirect=%2Fusers%2F42")).
Proof.
  refine (proj2 (proj2 (falsy_credential_is_no_credential
                          ascii_toLowerCase development sample_time
                          (mkNextURL (lit "http:") (lit "example.com") (lit "/users/42") [])
                          (lit "GET") None [(lit "user", jlit "0")] [] []
                          (jlit "0") _ _ _)) _ _).
  - simpl. tauto.
  - reflexivity.
  - reflexivity.
  - reflexivity.
  - reflexivity.
Defined.

(** C8 as stated fails in production over http: /users/42 with the cookie
    value null is redirected to https, not to the login page. *)
Lemma falsy_credential_is_no_credential_counterexample :
  JSON_parse (jlit "null") = Normal JNull /\
  isPublicPath (lit "/users/42") = false /\
  result (middleware ascii_toLowerCase production sample_time
            (sample_request "http:" "/users/42" (Some (jlit "null"))))
  = Normal (NextResponse_redirect (lit "https://example.com/users/42")) /\
  response_of (sample_request "http:" "/users/42" (Some (jlit "null"))) RedirectLogin
  = NextResponse_redirect (lit "http://example.com/login?redirect=%2Fusers%2F42").
Proof. repeat split; reflexivity. Qed.

(** C9.  Two requests with the same URL (scheme, host, path and query)
    and the same [user] cookie, handled under the same deployment mode,
    get the same result from the middleware: the same response, with the
    same redirect target, or the same error.  Method, address, other
    cookies, other headers and the time play no part. *)
Theorem decision_depends_only_on_url_and_user_cookie
    (toLowerCase : jsstring -> jsstring) (env env' : Env) (now now' : jsstring)
    (request request' : NextRequest) :
  NODE_ENV env = NODE_ENV env' ->
  nextUrl request = nextUrl request' ->
  cookies_get (lit "user") (cookies request)
    = cookies_get (lit "user") (cookies request') ->
  result (middleware toLowerCase env now request)
    = result (middleware toLowerCase env' now' request').
Proof.
  intros Henv Hurl Hck.
  rewrite !middleware_result. cbv zeta.
  rewrite !getUserFromRequest_cookie, <- Hck.
  unfold https_enforced. rewrite <- Henv, <- Hurl.
  repeat case_if; try reflexivity;
    try (destruct (some _ _); cbn [bind]; try reflexivity);
    f_equal; apply response_of_nextUrl; exact Hurl.
Qed.

Lemma decision_depends_only_on_url_and_user_cookie_witness :
  result (middleware ascii_toLowerCase development sample_time
            (sample_request "http:" "/users" (Some (jlit "{'role':'staff'}"))))
  = result (middleware ascii_toLowerCase development (lit "later")
              (mkRequest
                 (mkNextURL (lit "http:") (lit "example.com") (lit "/users") [])
                 (lit "POST") (Some (lit "10.0.0.1"))
                 [(lit "theme", lit "dark"); (lit "user", jlit "{'role':'staff'}")]
                 [(lit "accept", lit "*/*")])).
Proof.
  apply (decision_depends_only_on_url_and_user_cookie
           ascii_toLowerCase development development); reflexivity.
Defined.

(* ================================================================== *)
(** ** The compliance API helpers *)
(* ================================================================== *)

Lemma ok_spec (res : Response) :
  ok res = true <-> 200 <= res_status res <= 299.
Proof.
  unfold ok. rewrite andb_true_iff, !N.leb_le. reflexivity.
Qed.

(** [JSON.parse] throws nothing but a [SyntaxError]. *)
Lemma JSON_parse_throws (text : jsstring) (e : JSError) :
  JSON_parse text = Throw e -> exists message, e = SyntaxError message.
Proof.
  unfold JSON_parse.
  destruct (parse_value _ _) as [v rest| |]; [destruct (skip_ws rest)| |];
    intros H; try discriminate; injection H as <-; eexists; reflexivity.
Qed.

(** What a helper does with the response to its one request. *)
Lemma helper_settles (upstream : Upstream) (url : jsstring) (init : RequestInit)
    (message : jsstring) (res : Response) :
  upstream url init = Normal res ->
  run upstream
    (AwaitFetch url init
       (fun settled =>
          match settled with
          | Throw e => Settle (Throw e)
          | Normal res =>
              if negb (ok res) then Settle (Throw (Error message))
              else Settle (Response_json res)
          end))
  = ([(url, init)],
     if ok res then JSON_parse (res_body res) else Throw (Error message)).
Proof.
  intros H. cbn [run]. rewrite H. destruct (ok res); reflexivity.
Qed.

Lemma settled_by_status (message : jsstring) (res : Response) :
  ((if ok res then JSON_parse (res_body res) else Throw (Error message))
   = Throw (Error message) <-> ~ 200 <= res_status res <= 299) /\
  (200 <= res_status res <= 299 ->
   (if ok res then JSON_parse (res_body res) else Throw (Error message))
   = JSON_parse (res_body res)).
Proof.
  pose proof (ok_spec res) as Hok.
  destruct (ok res); split.
  - split.
    + intros H. apply JSON_parse_throws in H as [msg H]. discriminate.
    + intros H. exfalso. apply H, Hok. reflexivity.
  - reflexivity.
  - split; [|reflexivity]. intros _ H. apply Hok in H. discriminate.
  - intros H. apply Hok in H. discriminate.
Qed.

(** C10.  When the upstream answers the request of [fetchDueTasks] with a
    response, the helper issues that one request and rejects with the
    Error of message Failed to fetch due tasks exactly when the status is
    outside 200 to 299; on a status inside it settles as the JSON parse of
    the body does.  The same holds of [acknowledgeNextMonthTask] with the
    message Failed to acknowledge task, and the two messages differ. *)
Theorem compliance_helpers_by_status (env : Env) (upstream : Upstream)
    (hotelId taskId : jsstring) (res res' : Response) :
  upstream
    (template_env (NEXT_PUBLIC_API_URL env) ++ lit "/api/compliance/due-tasks/" ++ hotelId)
    default_init = Normal res ->
  upstream
    (template_env (NEXT_PUBLIC_API_URL env) ++ lit "/api/compliance/acknowledge-task")
    (mkInit (lit "POST") [(lit "Content-Type", lit "application/json")]
            (Some (JSON_stringify_record
                     [(lit "hotel_id", hotelId); (lit "task_id", taskId)])))
    = Normal res' ->
  (length (fst (run upstream (fetchDueTasks env hotelId))) = 1%nat /\
   (snd (run upstream (fetchDueTasks env hotelId))
      = Throw (Error (lit "Failed to fetch due tasks"))
    <-> ~ 200 <= res_status res <= 299) /\
   (200 <= res_status res <= 299 ->
    snd (run upstream (fetchDueTasks env hotelId)) = JSON_parse (res_body res))) /\
  (length (fst (run upstream (acknowledgeNextMonthTask env hotelId taskId))) = 1%nat /\
   (snd (run upstream (acknowledgeNextMonthTask env hotelId taskId))
      = Throw (Error (lit "Failed to acknowledge task"))
    <-> ~ 200 <= res_status res' <= 299) /\
   (200 <= res_status res' <= 299 ->
    snd (run upstream (acknowledgeNextMonthTask env hotelId taskId))
    = JSON_parse (res_body res'))) /\
  lit "Failed to fetch due tasks" <> lit "Failed to acknowledge task".
Proof.
  intros H H'. unfold fetchDueTasks, acknowledgeNextMonthTask.
  rewrite (helper_settles upstream _ _ _ res H).
  rewrite (helper_settles upstream _ _ _ res' H').
  cbn [fst snd length].
  split; [|split]; [split; [reflexivity|apply settled_by_status]
                   |split; [reflexivity|apply settled_by_status]
                   |discriminate].
Qed.

Lemma compliance_helpers_by_status_witness :
  snd (run (fun _ _ => Normal (mkFetchResponse 404 (jlit "{'detail':'Not Found'}")))
           (fetchDueTasks development (lit "hotel-1")))
  = Throw (Error (lit "Failed to fetch due tasks")).
Proof.
  refine (proj2 (proj1 (proj2 (proj1
            (compliance_helpers_by_status development
               (fun _ _ => Normal (mkFetchResponse 404 (jlit "{'detail':'Not Found'}")))
               (lit "hotel-1") (lit "task-1")
               (mkFetchResponse 404 (jlit "{'detail':'Not Found'}"))
               (mkFetchResponse 404 (jlit "{'detail':'Not Found'}"))
               eq_refl eq_refl)))) _).
  simpl. lia.
Defined.

Example fetchDueTasks_ok :
  run (fun _ _ => Normal (mkFetchResponse 200 (jlit "[{'id':'t1'}]")))
      (fetchDueTasks (mkEnv None (Some (lit "https://api.example.com"))) (lit "h1"))
  = ([(lit "https://api.example.com/api/compliance/due-tasks/h1", default_init)],
     Normal (JArray [JObject [(lit "id", JString (lit "t1"))]])).
Proof. reflexivity. Qed.

(* ================================================================== *)
(** ** Further properties of the gate *)
(* ================================================================== *)

(** The middleware answers with the response of the decision of the
    chain, and throws when the chain does. *)
Lemma middleware_decide (toLowerCase : jsstring -> jsstring)
    (env : Env) (now : jsstring) (request : NextRequest) :
  result (middleware toLowerCase env now request)
  = (d <- decide toLowerCase env request ;; Normal (response_of request d)).
Proof.
  rewrite middleware_result. unfold decide. cbv zeta.
  repeat case_if; try reflexivity.
  destruct (some _ _) as [[|]|e]; reflexivity.
Qed.

(** The admin test on any truthy credential: what the search over the
    admin roles returns for each shape of the role. *)
Lemma some_role_includes_cases (toLowerCase : jsstring -> jsstring) (user : JSON) :
  truthy user = true ->
  match some (role_includes toLowerCase user) adminRoles with
  | Normal true =>
      exists role, principal_role user = Some role
                   /\ contains_admin_role toLowerCase role
  | Normal false =>
      forall role, principal_role user = Some role ->
                   ~ contains_admin_role toLowerCase role
  | Throw _ => principal_role user = None
  end.
Proof.
  intros Ht.
  destruct (principal_role user) as [role|] eqn:Hp.
  - rewrite (some_role_includes toLowerCase user role Hp).
    pose proof (existsb_contains_admin_role toLowerCase role) as Hex.
    destruct (existsb _ adminRoles).
    + exists role. split; [reflexivity|]. now apply Hex.
    + intros r Hr. injection Hr as <-. intros H. apply Hex in H. discriminate.
  - destruct user as [| | | | |members]; try discriminate Ht;
      try (cbn; intros role H; discriminate).
    unfold principal_role in Hp. unfold adminRoles. cbn [some].
    unfold role_includes. cbn [get_role bind].
    destruct (last_member (lit "role") members) as [[| | |s| |]|];
      try discriminate Hp; cbn [bind]; try reflexivity;
      intros role H; discriminate.
Qed.

(** X1.  No pass-through on an admin path without an admin role: when the
    middleware answers a request for an admin path with status 200, the
    [user] cookie is a JSON text of an object whose role is a string that
    contains, in lower case, one of the admin roles. *)
Theorem admin_pass_needs_admin_role (toLowerCase : jsstring -> jsstring)
    (env : Env) (now : jsstring) (request : NextRequest) (resp : NextResponse) :
  requiresAdminAccess (pathname (nextUrl request)) = true ->
  result (middleware toLowerCase env now request) = Normal resp ->
  status resp = 200 ->
  exists value user role,
    cookies_get (lit "user") (cookies request) = Some value /\
    JSON_parse value = Normal user /\
    principal_role user = Some role /\
    contains_admin_role toLowerCase role.
Proof.
  intros Hadm Hres Hst.
  rewrite middleware_result in Hres. cbv zeta in Hres.
  rewrite (admin_not_public _ Hadm), Hadm in Hres.
  destruct (https_enforced env request).
  { injection Hres as <-. discriminate Hst. }
  destruct (truthy (getUserFromRequest request)) eqn:Ht; cbn [negb] in Hres.
  2:{ injection Hres as <-. discriminate Hst. }
  pose proof (some_role_includes_cases toLowerCase _ Ht) as Hcases.
  destruct (some _ _) as [[|]|e]; cbn [bind] in Hres; try discriminate Hres.
  2:{ injection Hres as <-. discriminate Hst. }
  destruct Hcases as (role & Hp & Hc).
  rewrite getUserFromRequest_cookie in Hp, Ht.
  destruct (cookies_get _ _) as [value|]; [|discriminate Ht].
  destruct (JSON_parse value) as [user|e] eqn:Hparse; [|discriminate Ht].
  now exists value, user, role.
Qed.

Lemma admin_pass_needs_admin_role_witness :
  exists value user role,
    cookies_get (lit "user")
      (cookies (sample_request "https:" "/users/7"
                  (Some (jlit "{'id':7,'role':'System Admin'}")))) = Some value /\
    JSON_parse value = Normal user /\
    principal_role user = Some role /\
    contains_admin_role ascii_toLowerCase role.
Proof.
  apply (admin_pass_needs_admin_role ascii_toLowerCase production sample_time
           (sample_request "https:" "/users/7"
              (Some (jlit "{'id':7,'role':'System Admin'}")))
           (response_of
              (sample_request "https:" "/users/7"
                 (Some (jlit "{'id':7,'role':'System Admin'}")))
              AllowWithHeaders)); reflexivity.
Defined.

(** X2.  On a path that is neither public nor an admin path, when HTTPS
    enforcement does not apply, the request is passed through with the
    security headers exactly when the [user] cookie is a JSON text of a
    truthy value, whatever that value is (an object, an array, a non-zero
    number, [true], a non-empty string); otherwise it is redirected to the
    login page. *)
Theorem ordinary_path_needs_truthy_credential (toLowerCase : jsstring -> jsstring)
    (env : Env) (now : jsstring) (request : NextRequest) :
  classify (pathname (nextUrl request)) = OrdinaryProtected ->
  https_enforced env request = false ->
  ((exists value user,
       cookies_get (lit "user") (cookies request) = Some value /\
       JSON_parse value = Normal user /\ truthy user = true)
   <-> result (middleware toLowerCase env now request)
       = Normal (response_of request AllowWithHeaders)) /\
  (~ (exists value user,
       cookies_get (lit "user") (cookies request) = Some value /\
       JSON_parse value = Normal user /\ truthy user = true)
   <-> result (middleware toLowerCase env now request)
       = Normal (response_of request RedirectLogin)).
Proof.
  intros Hc Hhttps.
  assert (isPublicPath (pathname (nextUrl request)) = false
          /\ requiresAdminAccess (pathname (nextUrl request)) = false) as [Hpub Hadm].
  { unfold classify in Hc.
    destruct (isPublicPath _), (requiresAdminAccess _); try discriminate; now split. }
  rewrite middleware_result. cbv zeta. rewrite Hpub, Hhttps, Hadm.
  rewrite getUserFromRequest_cookie.
  destruct (cookies_get _ _) as [value|].
  - destruct (JSON_parse value) as [user|e] eqn:Hparse.
    + destruct (truthy user) eqn:Ht; cbn [negb].
      * assert (exists value0 user0, Some value = Some value0
                  /\ JSON_parse value0 = Normal user0 /\ truthy user0 = true) as Hex
          by now exists value, user.
        split; split; try reflexivity; try tauto.
        intros H. injection H as H. discriminate.
      * assert (~ exists value0 user0, Some value = Some value0
                  /\ JSON_parse value0 = Normal user0 /\ truthy user0 = true) as Hn.
        { intros (v & u & Hv & Hu & Htu). injection Hv as <-. congruence. }
        split; split; try reflexivity; try tauto.
        intros H. injection H as H. discriminate.
    + assert (~ exists value0 user0, Some value = Some value0
                  /\ JSON_parse value0 = Normal user0 /\ truthy user0 = true) as Hn.
      { intros (v & u & Hv & Hu & Htu). injection Hv as <-. congruence. }
      cbn [truthy negb].
      split; split; try reflexivity; try tauto.
      intros H. injection H as H. discriminate.
  - assert (~ exists value0 user0, @None jsstring = Some value0
                  /\ JSON_parse value0 = Normal user0 /\ truthy user0 = true) as Hn.
    { intros (v & u & Hv & _). discriminate. }
    cbn [truthy negb].
    split; split; try reflexivity; try tauto.
    intros H. injection H as H. discriminate.
Qed.

Lemma ordinary_path_needs_truthy_credential_witness :
  result (middleware ascii_toLowerCase development sample_time
            (sample_request "http:" "/dashboard" (Some (jlit "true"))))
  = Normal (response_of (sample_request "http:" "/dashboard" (Some (jlit "true")))
                        AllowWithHeaders).
Proof.
  refine (proj1 (proj1 (ordinary_path_needs_truthy_credential
                          ascii_toLowerCase development sample_time
                          (sample_request "http:" "/dashboard" (Some (jlit "true")))
                          _ _)) _).
  - reflexivity.
  - reflexivity.
  - exists (jlit "true"), (JBool true). repeat split.
Defined.

(** X3.  The middleware answers with the response of a decision, without
    throwing, on every request whose credential has no role, a null role
    or a string role (and on every request without credential, with a
    malformed one, or with one that is no object). *)
Theorem middleware_decides_unless_role (toLowerCase : jsstring -> jsstring)
    (env : Env) (now : jsstring) (request : NextRequest) :
  (forall members v,
      getUserFromRequest request = JObject members ->
      last_member (lit "role") members = Some v ->
      v = JNull \/ exists s, v = JString s) ->
  exists d, result (middleware toLowerCase env now request)
            = Normal (response_of request d).
Proof.
  intros Hrole.
  destruct (result (middleware toLowerCase env now request)) as [resp|e] eqn:Hres.
  - destruct (middleware_decides _ _ _ _ _ Hres) as [d ->]. now exists d.
  - exfalso.
    assert (exists e0, result (middleware toLowerCase env now request) = Throw e0) as Hex
      by now exists e.
    apply middleware_throws_iff in Hex as (_ & _ & _ & _ & v & Hget & Hnull & Hstr).
    destruct (getUserFromRequest request) as [| | | | |members] eqn:Hu;
      try discriminate Hget.
    cbn [get_role] in Hget. injection Hget as Hget.
    destruct (Hrole members v eq_refl Hget) as [-> | [s ->]].
    + now apply Hnull.
    + now apply (Hstr s).
Qed.

Lemma middleware_decides_unless_role_witness :
  exists d,
    result (middleware ascii_toLowerCase development sample_time
              (sample_request "http:" "/admin" (Some (jlit "{'role':null}"))))
    = Normal (response_of
                (sample_request "http:" "/admin" (Some (jlit "{'role':null}"))) d).
Proof.
  apply (middleware_decides_unless_role ascii_toLowerCase development sample_time
           (sample_request "http:" "/admin" (Some (jlit "{'role':null}")))).
  intros members v Hu Hl.
  change (getUserFromRequest
            (sample_request "http:" "/admin" (Some (jlit "{'role':null}"))))
    with (JObject [(lit "role", JNull)]) in Hu.
  injection Hu as <-. cbn in Hl. injection Hl as <-. now left.
Defined.

Lemma includes_app_search (s a p b : jsstring) :
  includes s (a ++ p ++ b) = true -> includes s p = true.
Proof.
  intros H. apply includes_spec in H as (x & y & ->).
  apply includes_spec. exists (x ++ a), (b ++ y).
  now rewrite <- !app_assoc.
Qed.

(** X4.  For a principal, the search over the three admin roles returns
    what the single test for [admin] returns: the role passes exactly when
    its lower case contains [admin], since the other two roles contain it. *)
Theorem admin_test_is_contains_admin (toLowerCase : jsstring -> jsstring)
    (Hlc : lowers_ascii toLowerCase) (user : JSON) (role : jsstring) :
  principal_role user = Some role ->
  some (role_includes toLowerCase user) adminRoles
  = Normal (includes (toLowerCase role) (lit "admin")).
Proof.
  intros Hp. rewrite (some_role_includes toLowerCase user role Hp). f_equal.
  unfold adminRoles. cbn [existsb].
  rewrite !(lowers_ascii_lit toLowerCase _ Hlc) by reflexivity.
  change (ascii_toLowerCase (lit "system admin")) with (lit "system " ++ lit "admin" ++ []).
  change (ascii_toLowerCase (lit "administrator")) with ([] ++ lit "admin" ++ lit "istrator").
  change (ascii_toLowerCase (lit "admin")) with (lit "admin").
  destruct (includes (toLowerCase role) (lit "admin")) eqn:E.
  - rewrite !orb_true_r. reflexivity.
  - destruct (includes _ (lit "system " ++ _)) eqn:E1;
      [apply includes_app_search in E1; congruence|].
    destruct (includes _ ([] ++ _)) eqn:E2;
      [apply includes_app_search in E2; congruence|].
    reflexivity.
Qed.

Lemma admin_test_is_contains_admin_witness :
  some (role_includes ascii_toLowerCase
          (JObject [(lit "role", JString (lit "Badminton coach"))])) adminRoles
  = Normal true.
Proof.
  exact (admin_test_is_contains_admin ascii_toLowerCase ascii_toLowerCase_lowers
           (JObject [(lit "role", JString (lit "Badminton coach"))])
           (lit "Badminton coach") eq_refl).
Defined.

Lemma startsWith_extend (p s prefix : jsstring) :
  startsWith p prefix = true -> startsWith (p ++ s) prefix = true.
Proof.
  intros H. apply startsWith_spec in H as [t ->].
  rewrite <- app_assoc. apply startsWith_app.
Qed.

Lemma existsb_startsWith_extend (p s : jsstring) (prefixes : list jsstring) :
  existsb (fun path => startsWith p path) prefixes = true ->
  existsb (fun path => startsWith (p ++ s) path) prefixes = true.
Proof.
  rewrite !existsb_exists. intros (prefix & Hin & H).
  exists prefix. split; [exact Hin|]. now apply startsWith_extend.
Qed.

(** X5.  The class of a public path and of an admin path is kept by every
    path that extends it: what lies under a public prefix is public, what
    lies under an admin prefix is admin-protected and never public. *)
Theorem classify_extension (path suffix : jsstring) :
  classify (path ++ suffix)
  = match classify path with
    | Public => Public
    | AdminProtected => AdminProtected
    | OrdinaryProtected => classify (path ++ suffix)
    end.
Proof.
  unfold classify.
  destruct (isPublicPath path) eqn:Hpub.
  - unfold isPublicPath in *.
    now rewrite (existsb_startsWith_extend path suffix publicPaths Hpub).
  - destruct (requiresAdminAccess path) eqn:Hadm; [|reflexivity].
    assert (requiresAdminAccess (path ++ suffix) = true) as Hext
      by (apply existsb_startsWith_extend; exact Hadm).
    now rewrite (admin_not_public _ Hext), Hext.
Qed.

(** X10.  The console gets no line for a public path or an HTTPS redirect
    and one line otherwise, also when the middleware throws; the line is
    made of the time, the method, the path and the address, and is the
    same whatever the cookies and the headers of the request are. *)
Theorem console_ignores_credentials (toLowerCase : jsstring -> jsstring)
    (env : Env) (now : jsstring) (u : NextURL) (m : jsstring) (i : option jsstring)
    (c c' : list (jsstring * jsstring)) (h h' : Headers) :
  console (middleware toLowerCase env now (mkRequest u m i c h))
  = console (middleware toLowerCase env now (mkRequest u m i c' h')) /\
  console (middleware toLowerCase env now (mkRequest u m i c h))
  = if isPublicPath (pathname u) || https_enforced env (mkRequest u m i c h)
    then []
    else [now ++ lit " - " ++ m ++ lit " " ++ pathname u ++ lit " - "
              ++ match i with
                 | Some (a :: b) => a :: b
                 | _ => lit "unknown IP"
                 end].
Proof.
  rewrite !middleware_console. cbn [nextUrl method ip].
  split; reflexivity.
Qed.

(** X13.  How a helper settles against any upstream, a rejecting one
    included: it issues one request; it resolves only with the parsed body
    of a response whose status is in 200 to 299; it rejects with the
    error of the rejected fetch, with its fixed Error on another status,
    or with the error of the body parse. *)
Theorem helpers_settle (env : Env) (upstream : Upstream) (hotelId taskId : jsstring) :
  let settles (url : jsstring) (init : RequestInit) (message : jsstring)
              (out : list (jsstring * RequestInit) * completion JSON) : Prop :=
    fst out = [(url, init)] /\
    match snd out with
    | Normal payload =>
        exists res, upstream url init = Normal res /\ ok res = true
                    /\ JSON_parse (res_body res) = Normal payload
    | Throw e =>
        upstream url init = Throw e \/
        exists res, upstream url init = Normal res /\
                    ((ok res = false /\ e = Error message) \/
                     (ok res = true /\ JSON_parse (res_body res) = Throw e))
    end in
  settles
    (template_env (NEXT_PUBLIC_API_URL env) ++ lit "/api/compliance/due-tasks/" ++ hotelId)
    default_init (lit "Failed to fetch due tasks")
    (run upstream (fetchDueTasks env hotelId)) /\
  settles
    (template_env (NEXT_PUBLIC_API_URL env) ++ lit "/api/compliance/acknowledge-task")
    (mkInit (lit "POST") [(lit "Content-Type", lit "application/json")]
            (Some (JSON_stringify_record
                     [(lit "hotel_id", hotelId); (lit "task_id", taskId)])))
    (lit "Failed to acknowledge task")
    (run upstream (acknowledgeNextMonthTask env hotelId taskId)).
Proof.
  cbv zeta. unfold fetchDueTasks, acknowledgeNextMonthTask. cbn [run].
  split.
  - destruct (upstream _ default_init) as [res|e] eqn:Hup; cbn [run fst snd].
    + destruct (ok res) eqn:Hok; cbn [negb run fst snd]; split; try reflexivity.
      * unfold Response_json.
        destruct (JSON_parse (res_body res)) as [v|e] eqn:Hp.
        -- now exists res.
        -- right. exists res. split; [reflexivity|]. right. now split.
      * right. exists res. split; [reflexivity|]. left. now split.
    + split; [reflexivity|]. now left.
  - destruct (upstream _ (mkInit _ _ _)) as [res|e] eqn:Hup; cbn [run fst snd].
    + destruct (ok res) eqn:Hok; cbn [negb run fst snd]; split; try reflexivity.
      * unfold Response_json.
        destruct (JSON_parse (res_body res)) as [v|e] eqn:Hp.
        -- now exists res.
        -- right. exists res. split; [reflexivity|]. right. now split.
      * right. exists res. split; [reflexivity|]. left. now split.
    + split; [reflexivity|]. now left.
Qed.

(** X7.  The matcher selects every admin path (one without line
    terminator, as the path of a URL is): requests for the admin area
    never go around the middleware. *)
Theorem matcher_selects_admin_paths (path : jsstring) :
  requiresAdminAccess path = true ->
  forallb (fun c => negb (is_line_terminator c)) path = true ->
  config_matcher path = true.
Proof.
  unfold requiresAdminAccess. rewrite existsb_exists.
  intros (prefix & Hin & Hs) Hlt. apply startsWith_spec in Hs as [t ->].
  rewrite forallb_app in Hlt. apply andb_true_iff in Hlt as [_ Ht].
  assert (forall pre,
             matcher_lookahead (pre ++ t) = false ->
             forallb (fun c => negb (is_line_terminator c)) pre = true ->
             config_matcher (ch "/" :: pre ++ t) = true) as K.
  { intros pre Hl Hpre. cbn [config_matcher].
    rewrite Hl, forallb_app, Hpre, Ht. reflexivity. }
  unfold adminPaths in Hin. simpl in Hin.
  destruct Hin as [<- | [<- | [<- | []]]].
  - apply (K (lit "admin")); reflexivity.
  - apply (K (lit "users")); reflexivity.
  - apply (K (lit "user-management")); reflexivity.
Qed.

Lemma matcher_selects_admin_paths_witness :
  config_matcher (lit "/user-management/roles") = true.
Proof.
  apply (matcher_selects_admin_paths (lit "/user-management/roles")); reflexivity.
Defined.

(** What follows each decision of the chain: the Location of a redirect
    is the URL of the request that follows it; after the login redirect
    the public rule applies, after the redirect to /dashboard the request
    is passed through, and after the HTTPS redirect the HTTPS rule does
    not apply again. *)
Lemma follow_after_decision (toLowerCase : jsstring -> jsstring)
    (env : Env) (now : jsstring) (request : NextRequest) (d : GateDecision) :
  decide toLowerCase env request = Normal d ->
  match d with
  | RedirectLogin =>
      Headers_get (lit "Location") (headers (response_of request d))
        = Some (NextURL_href (nextUrl (follow request d))) /\
      result (middleware toLowerCase env now (follow request d))
        = Normal (response_of (follow request d) Allow)
  | RedirectDefault =>
      Headers_get (lit "Location") (headers (response_of request d))
        = Some (NextURL_href (nextUrl (follow request d))) /\
      result (middleware toLowerCase env now (follow request d))
        = Normal (response_of (follow request d) AllowWithHeaders)
  | RedirectHttps =>
      Headers_get (lit "Location") (headers (response_of request d))
        = Some (NextURL_href (nextUrl (follow request d))) /\
      decide toLowerCase env (follow request d) <> Normal RedirectHttps
  | Allow | AllowWithHeaders => status (response_of request d) = 200
  end.
Proof.
  intros Hd. destruct d; try reflexivity.
  - (* login *)
    split.
    + cbn. unfold NextURL_href. cbn. reflexivity.
    + rewrite middleware_result. reflexivity.
  - (* dashboard *)
    split.
    + cbn. unfold NextURL_href. cbn. rewrite ?app_nil_r. reflexivity.
    + unfold decide in Hd. cbv zeta in Hd.
      destruct (isPublicPath _); [discriminate|].
      destruct (https_enforced env request) eqn:Hhttps; [discriminate|].
      destruct (truthy (getUserFromRequest request)) eqn:Ht;
        [|discriminate]. clear Hd.
      rewrite middleware_result. cbv zeta.
      change (pathname (nextUrl (follow request RedirectDefault))) with (lit "/dashboard").
      change (isPublicPath (lit "/dashboard")) with false.
      change (requiresAdminAccess (lit "/dashboard")) with false.
      change (https_enforced env (follow request RedirectDefault))
        with (https_enforced env request).
      rewrite Hhttps.
      rewrite getUserFromRequest_cookie in Ht |- *. cbn [follow cookies].
      rewrite Ht. reflexivity.
  - (* https *)
    split.
    + cbn. unfold NextURL_href. cbn. reflexivity.
    + unfold decide. cbv zeta.
      assert (https_enforced env (follow request RedirectHttps) = false) as ->.
      { unfold https_enforced. cbn [follow nextUrl protocol].
        change (includes (lit "https:") (lit "https")) with true.
        apply andb_false_r. }
      repeat case_if; try discriminate.
      destruct (some _ _) as [[|]|e]; discriminate.
Qed.

(** X12.  Redirects do not loop.  When the middleware answers a request
    with a redirect (status 307), the Location of that response is the
    URL of the login page, of /dashboard or of the request under https,
    and the request that a client then sends for it (same method,
    cookies and headers) is answered by the middleware with a
    pass-through; only after the HTTPS redirect can one more redirect
    come (to the login page or to /dashboard), whose Location leads to a
    pass-through in turn, or the role test can throw. *)
Theorem redirects_do_not_loop (toLowerCase : jsstring -> jsstring)
    (env : Env) (now now' : jsstring) (request : NextRequest) (resp : NextResponse) :
  result (middleware toLowerCase env now request) = Normal resp ->
  status resp = 307 ->
  exists d,
    (d = RedirectLogin \/ d = RedirectDefault \/ d = RedirectHttps) /\
    Headers_get (lit "Location") (headers resp)
      = Some (NextURL_href (nextUrl (follow request d))) /\
    match result (middleware toLowerCase env now' (follow request d)) with
    | Throw _ => d = RedirectHttps
    | Normal resp2 =>
        status resp2 = 200 \/
        (d = RedirectHttps /\ status resp2 = 307 /\
         exists d2,
           (d2 = RedirectLogin \/ d2 = RedirectDefault) /\
           Headers_get (lit "Location") (headers resp2)
             = Some (NextURL_href (nextUrl (follow (follow request d) d2))) /\
           exists resp3,
             result (middleware toLowerCase env now' (follow (follow request d) d2))
               = Normal resp3 /\
             status resp3 = 200)
    end.
Proof.
  intros Hres Hst. rewrite middleware_decide in Hres.
  destruct (decide toLowerCase env request) as [d|e] eqn:Hd; [|discriminate].
  cbn [bind] in Hres. injection Hres as <-.
  pose proof (follow_after_decision toLowerCase env now' request d Hd) as Hf.
  destruct d; try discriminate Hst.
  - destruct Hf as [Hloc Hnext]. exists RedirectLogin.
    split; [tauto|]. split; [exact Hloc|]. rewrite Hnext. now left.
  - destruct Hf as [Hloc Hnext]. exists RedirectDefault.
    split; [tauto|]. split; [exact Hloc|]. rewrite Hnext. now left.
  - destruct Hf as [Hloc Hnot]. exists RedirectHttps.
    split; [tauto|]. split; [exact Hloc|].
    rewrite middleware_decide.
    destruct (decide toLowerCase env (follow request RedirectHttps)) as [d2|e2] eqn:Hd2;
      cbn [bind]; [|reflexivity].
    pose proof (follow_after_decision toLowerCase env now'
                  (follow request RedirectHttps) d2 Hd2) as Hf2.
    destruct d2.
    + now left.
    + now left.
    + destruct Hf2 as [Hloc2 Hnext2]. right.
      split; [reflexivity|]. split; [reflexivity|].
      exists RedirectLogin. split; [tauto|]. split; [exact Hloc2|].
      eexists. split; [exact Hnext2|reflexivity].
    + destruct Hf2 as [Hloc2 Hnext2]. right.
      split; [reflexivity|]. split; [reflexivity|].
      exists RedirectDefault. split; [tauto|]. split; [exact Hloc2|].
      eexists. split; [exact Hnext2|reflexivity].
    + exfalso. now apply Hnot.
Qed.

(** In production over http, /users with the credential of role staff:
    https first, then /dashboard, then the pass-through. *)
Lemma redirects_do_not_loop_witness :
  exists d,
    (d = RedirectLogin \/ d = RedirectDefault \/ d = RedirectHttps) /\
    Headers_get (lit "Location")
      (headers (NextResponse_redirect (lit "https://example.com/users")))
      = Some (NextURL_href
                (nextUrl (follow (sample_request "http:" "/users"
                                    (Some (jlit "{'role':'staff'}"))) d))) /\
    match result (middleware ascii_toLowerCase production sample_time
                    (follow (sample_request "http:" "/users"
                               (Some (jlit "{'role':'staff'}"))) d)) with
    | Throw _ => d = RedirectHttps
    | Normal resp2 =>
        status resp2 = 200 \/
        (d = RedirectHttps /\ status resp2 = 307 /\
         exists d2,
           (d2 = RedirectLogin \/ d2 = RedirectDefault) /\
           Headers_get (lit "Location") (headers resp2)
             = Some (NextURL_href
                       (nextUrl (follow (follow (sample_request "http:" "/users"
                                                   (Some (jlit "{'role':'staff'}"))) d)
                                        d2))) /\
           exists resp3,
             result (middleware ascii_toLowerCase production sample_time
                       (follow (follow (sample_request "http:" "/users"
                                          (Some (jlit "{'role':'staff'}"))) d) d2))
               = Normal resp3 /\
             status resp3 = 200)
    end.
Proof.
  apply (redirects_do_not_loop ascii_toLowerCase production sample_time sample_time
           (sample_request "http:" "/users" (Some (jlit "{'role':'staff'}")))
           (NextResponse_redirect (lit "https://example.com/users")));
    reflexivity.
Defined.

(* ================================================================== *)
(** ** The form-urlencoded serializer *)
(* ================================================================== *)

Lemma lt_16_cases (n : N) :
  n < 16 -> In n [0; 1; 2; 3; 4; 5; 6; 7; 8; 9; 10; 11; 12; 13; 14; 15].
Proof. intros H. simpl. lia. Qed.

Ltac by_16_cases H :=
  apply lt_16_cases in H; simpl in H;
  repeat (destruct H as [<- | H]; [reflexivity|]); contradiction.

Lemma hex_digit_urlencoded (n : N) : n < 16 -> is_urlencoded_unit (hex_digit n) = true.
Proof. intros H. by_16_cases H. Qed.

Lemma hex_value_hex_digit (n : N) : n < 16 -> hex_value (hex_digit n) = Some n.
Proof. intros H. by_16_cases H. Qed.

Lemma hex_value_hex_digit_lower (n : N) :
  n < 16 -> hex_value (hex_digit_lower n) = Some n.
Proof. intros H. by_16_cases H. Qed.

Lemma byte_nibbles (b : N) :
  b < 256 -> b / 16 < 16 /\ b mod 16 < 16 /\ (b / 16) * 16 + b mod 16 = b.
Proof.
  intros H.
  pose proof (N.Div0.div_mod b 16). pose proof (N.mod_lt b 16 ltac:(lia)).
  assert (b / 16 < 16) by (apply N.Div0.div_lt_upper_bound; lia).
  lia.
Qed.

Lemma urlencode_byte_urlencoded (b : N) :
  b < 256 -> forallb is_urlencoded_unit (urlencode_byte b) = true.
Proof.
  intros H. unfold urlencode_byte.
  destruct (b =? 32); [reflexivity|].
  destruct (is_alnum b || (b =? ch "*") || (b =? ch "-") || (b =? ch ".")
            || (b =? ch "_")) eqn:E.
  - cbn [forallb]. unfold is_urlencoded_unit. rewrite E. reflexivity.
  - destruct (byte_nibbles b H) as (H1 & H2 & _).
    cbn [forallb].
    rewrite (hex_digit_urlencoded _ H1), (hex_digit_urlencoded _ H2). reflexivity.
Qed.

Lemma utf8_encode_bytes (cp : N) :
  cp < 1114112 -> Forall (fun b => b < 256) (utf8_encode cp).
Proof.
  intros H. unfold utf8_encode.
  destruct (cp <? 128) eqn:E1; [apply N.ltb_lt in E1; repeat constructor; lia|].
  destruct (cp <? 2048) eqn:E2.
  { apply N.ltb_lt in E2.
    assert (cp / 64 < 32) by (apply N.Div0.div_lt_upper_bound; lia).
    pose proof (N.mod_lt cp 64 ltac:(lia)).
    repeat constructor; lia. }
  destruct (cp <? 65536) eqn:E3.
  { apply N.ltb_lt in E3.
    assert (cp / 4096 < 16) by (apply N.Div0.div_lt_upper_bound; lia).
    pose proof (N.mod_lt cp 64 ltac:(lia)).
    pose proof (N.mod_lt (cp / 64) 64 ltac:(lia)).
    repeat constructor; lia. }
  assert (cp / 262144 < 16) by (apply N.Div0.div_lt_upper_bound; lia).
  pose proof (N.mod_lt cp 64 ltac:(lia)).
  pose proof (N.mod_lt (cp / 64) 64 ltac:(lia)).
  pose proof (N.mod_lt (cp / 4096) 64 ltac:(lia)).
  repeat constructor; lia.
Qed.

Lemma surrogate_bounds (c : code_unit) :
  (is_high_surrogate c = true -> 55296 <= c <= 56319) /\
  (is_low_surrogate c = true -> 56320 <= c <= 57343).
Proof.
  unfold is_high_surrogate, is_low_surrogate.
  rewrite !andb_true_iff, !N.leb_le. tauto.
Qed.

Lemma scalar_values_bound (n : nat) :
  forall s, (length s <= n)%nat -> is_jsstring s ->
            Forall (fun cp => cp < 1114112) (scalar_values s).
Proof.
  induction n as [|n IH]; intros s Hn Hs.
  - destruct s; [constructor|simpl in Hn; lia].
  - destruct s as [|c rest]; [constructor|].
    inversion Hs as [|? ? Hc Hrest]; subst. simpl in Hn.
    cbn [scalar_values].
    destruct (is_high_surrogate c) eqn:Eh.
    + destruct rest as [|d rest']; [repeat constructor; lia|].
      inversion Hrest as [|? ? Hd Hrest']; subst.
      destruct (is_low_surrogate d) eqn:El.
      * apply surrogate_bounds in Eh. apply surrogate_bounds in El.
        constructor; [lia|]. apply IH; [simpl in Hn; lia|exact Hrest'].
      * constructor; [lia|]. apply IH; [lia|exact Hrest].
    + destruct (is_low_surrogate c);
        (constructor; [lia|]; apply IH; [lia|exact Hrest]).
Qed.

Lemma forallb_flat_map {A B : Type} (p : B -> bool) (f : A -> list B) (l : list A) :
  (forall x, In x l -> forallb p (f x) = true) ->
  forallb p (flat_map f l) = true.
Proof.
  induction l as [|x l IH]; intros H; [reflexivity|].
  cbn [flat_map]. rewrite forallb_app, (H x (or_introl eq_refl)).
  apply IH. intros y Hy. apply H. now right.
Qed.

(** X8.  The Location of the login redirect is the origin of the request,
    /login?redirect= and the encoded path, and the encoded path is made of
    ASCII letters and digits and of [* - . _ + %] only, whatever the path
    holds: no character of the path can end the parameter or start another
    one ([&], [=], [#], [?] and the slash are always escaped). *)
Theorem login_redirect_parameter_is_escaped (u : NextURL) :
  is_jsstring (pathname u) ->
  href (searchParams_set (lit "redirect") (pathname u) (new_URL (lit "/login") u))
    = protocol u ++ lit "//" ++ host u ++ lit "/login?redirect=" ++ urlencode (pathname u)
  /\ forallb is_urlencoded_unit (urlencode (pathname u)) = true
  /\ forallb (fun c => negb (is_urlencoded_unit c)) (lit "&=#?/ ") = true.
Proof.
  intros Hs. split; [apply login_href|]. split; [|reflexivity].
  unfold urlencode. apply forallb_flat_map. intros b Hb.
  apply urlencode_byte_urlencoded.
  apply in_flat_map in Hb as (cp & Hcp & Hb).
  pose proof (scalar_values_bound (length (pathname u)) _ (le_n _) Hs) as Hall.
  rewrite Forall_forall in Hall.
  pose proof (utf8_encode_bytes cp (Hall cp Hcp)) as Hbytes.
  rewrite Forall_forall in Hbytes. now apply Hbytes.
Qed.

Lemma login_redirect_parameter_is_escaped_witness :
  forallb is_urlencoded_unit
    (urlencode (pathname (mkNextURL (lit "http:") (lit "example.com")
                            (lit "/a&redirect=/evil?x#y") []))) = true.
Proof.
  refine (proj1 (proj2 (login_redirect_parameter_is_escaped
                          (mkNextURL (lit "http:") (lit "example.com")
                             (lit "/a&redirect=/evil?x#y") []) _))).
  unfold is_jsstring. cbn. repeat constructor.
Defined.

Lemma ascii_scalar_values (s : jsstring) : is_ascii s -> scalar_values s = s.
Proof.
  induction 1 as [|c rest Hc Hrest IH]; [reflexivity|].
  cbn [scalar_values].
  assert (is_high_surrogate c = false) as ->.
  { unfold is_high_surrogate. apply andb_false_iff. left. apply N.leb_gt. lia. }
  assert (is_low_surrogate c = false) as ->.
  { unfold is_low_surrogate. apply andb_false_iff. left. apply N.leb_gt. lia. }
  now rewrite IH.
Qed.

Lemma ascii_utf8 (s : jsstring) : is_ascii s -> flat_map utf8_encode s = s.
Proof.
  induction 1 as [|c rest Hc Hrest IH]; [reflexivity|].
  cbn [flat_map]. unfold utf8_encode at 1.
  apply N.ltb_lt in Hc. rewrite Hc. cbn [app]. now rewrite IH.
Qed.

Lemma urldecode_urlencode_byte (b : N) (rest : jsstring) :
  b < 256 -> urldecode_bytes (urlencode_byte b ++ rest) = b :: urldecode_bytes rest.
Proof.
  intros H. unfold urlencode_byte.
  destruct (b =? 32) eqn:E32.
  { apply N.eqb_eq in E32. subst b. reflexivity. }
  destruct (is_alnum b || (b =? ch "*") || (b =? ch "-") || (b =? ch ".")
            || (b =? ch "_")) eqn:E.
  - cbn [app urldecode_bytes].
    destruct (b =? ch "+") eqn:Ep.
    { apply N.eqb_eq in Ep. subst b. discriminate E. }
    destruct (b =? ch "%") eqn:Eq.
    { apply N.eqb_eq in Eq. subst b. discriminate E. }
    reflexivity.
  - destruct (byte_nibbles b H) as (H1 & H2 & H3).
    cbn [app urldecode_bytes].
    change (ch "%" =? ch "+") with false. change (ch "%" =? ch "%") with true.
    cbv iota.
    rewrite (hex_value_hex_digit _ H1), (hex_value_hex_digit _ H2), H3.
    reflexivity.
Qed.

Lemma urldecode_urlencode (s : jsstring) :
  is_ascii s -> urldecode_bytes (urlencode s) = s.
Proof.
  intros Hs. unfold urlencode.
  rewrite (ascii_scalar_values s Hs), (ascii_utf8 s Hs).
  induction Hs as [|c rest Hc Hrest IH]; [reflexivity|].
  cbn [flat_map]. rewrite urldecode_urlencode_byte by lia. now rewrite IH.
Qed.

(** X9.  The login redirect keeps the path: percent-decoding the [redirect]
    parameter gives back the path of the request (an ASCII string, as the
    path of a URL is), so two requests to the same origin with different
    paths are sent to different login URLs. *)
Theorem login_redirect_keeps_path (u u' : NextURL) :
  is_ascii (pathname u) ->
  is_ascii (pathname u') ->
  protocol u = protocol u' ->
  host u = host u' ->
  urldecode_bytes (urlencode (pathname u)) = pathname u /\
  (href (searchParams_set (lit "redirect") (pathname u) (new_URL (lit "/login") u))
   = href (searchParams_set (lit "redirect") (pathname u') (new_URL (lit "/login") u'))
   -> pathname u = pathname u').
Proof.
  intros Hp Hp' Hproto Hhost. split; [now apply urldecode_urlencode|].
  rewrite !login_href, <- Hproto, <- Hhost. intros H.
  apply app_inv_head in H. apply app_inv_head in H. apply app_inv_head in H.
  apply app_inv_head in H.
  rewrite <- (urldecode_urlencode _ Hp), <- (urldecode_urlencode _ Hp'), H.
  reflexivity.
Qed.

Lemma login_redirect_keeps_path_witness :
  urldecode_bytes (urlencode (lit "/reports/2024 Q1/a+b%20c")) = lit "/reports/2024 Q1/a+b%20c".
Proof.
  refine (proj1 (login_redirect_keeps_path
                   (mkNextURL (lit "http:") (lit "example.com")
                      (lit "/reports/2024 Q1/a+b%20c") [])
                   (mkNextURL (lit "http:") (lit "example.com")
                      (lit "/reports/2024 Q1/a+b%20c") [])
                   _ _ eq_refl eq_refl));
    unfold is_ascii; cbn; repeat constructor.
Defined.

(* ================================================================== *)
(** ** The body of the acknowledge request *)
(* ================================================================== *)

Lemma code_unit_nibbles (c : N) :
  c < 65536 ->
  c / 4096 < 16 /\ (c / 256) mod 16 < 16 /\ (c / 16) mod 16 < 16 /\ c mod 16 < 16 /\
  (((c / 4096) * 16 + (c / 256) mod 16) * 16 + (c / 16) mod 16) * 16 + c mod 16 = c.
Proof.
  intros H.
  pose proof (N.Div0.div_mod c 16).
  pose proof (N.Div0.div_mod (c / 16) 16).
  pose proof (N.Div0.div_mod (c / 256) 16).
  assert (c / 16 / 16 = c / 256) as E1 by (rewrite N.Div0.div_div; reflexivity).
  assert (c / 256 / 16 = c / 4096) as E2 by (rewrite N.Div0.div_div; reflexivity).
  rewrite E1, E2 in *.
  assert (c / 4096 < 16) by (apply N.Div0.div_lt_upper_bound; lia).
  pose proof (N.mod_lt c 16 ltac:(lia)).
  pose proof (N.mod_lt (c / 16) 16 ltac:(lia)).
  pose proof (N.mod_lt (c / 256) 16 ltac:(lia)).
  lia.
Qed.

(** A unicode escape is read back as its code unit. *)
Lemma parse_unicode_escape (c : code_unit) (rest acc : jsstring) :
  c < 65536 ->
  parse_string_chars (unicode_escape c ++ rest) acc
  = parse_string_chars rest (c :: acc).
Proof.
  intros H. destruct (code_unit_nibbles c H) as (H1 & H2 & H3 & H4 & E).
  unfold unicode_escape. cbn [app parse_string_chars].
  change (BACKSLASH =? QUOTE) with false.
  change (BACKSLASH =? BACKSLASH) with true.
  change (ch "u" =? ch "u") with true. cbv iota.
  unfold hex4.
  rewrite (hex_value_hex_digit_lower _ H1), (hex_value_hex_digit_lower _ H2),
    (hex_value_hex_digit_lower _ H3), (hex_value_hex_digit_lower _ H4), E.
  reflexivity.
Qed.

(** What QuoteJSONString writes for one code unit is read back as that unit. *)
Lemma parse_quote_unit (c : code_unit) (rest acc : jsstring) :
  c < 65536 ->
  parse_string_chars (quote_unit c ++ rest) acc
  = parse_string_chars rest (c :: acc).
Proof.
  intros H. unfold quote_unit.
  repeat match goal with
         | |- context [if ?x =? ?y then _ else _] =>
             destruct (x =? y) eqn:?;
             [ match goal with E : (_ =? _) = true |- _ =>
                 apply N.eqb_eq in E; subst c; reflexivity end | ]
         end.
  destruct ((c <? 32) || is_high_surrogate c || is_low_surrogate c) eqn:E.
  - now apply parse_unicode_escape.
  - apply orb_false_iff in E as [E _]. apply orb_false_iff in E as [E _].
    cbn [app parse_string_chars].
    repeat match goal with
           | E : (c =? ?y) = false |- context [c =? ?y] => rewrite E
           end.
    rewrite E. reflexivity.
Qed.

Lemma surrogate_is_plain (c : code_unit) (rest acc : jsstring) :
  55296 <= c ->
  parse_string_chars (c :: rest) acc = parse_string_chars rest (c :: acc).
Proof.
  intros H. cbn [parse_string_chars].
  assert ((c =? QUOTE) = false) as -> by (apply N.eqb_neq; unfold QUOTE; lia).
  assert ((c =? BACKSLASH) = false) as -> by (apply N.eqb_neq; unfold BACKSLASH; lia).
  assert ((c <? 32) = false) as -> by (apply N.ltb_ge; lia).
  reflexivity.
Qed.

(** [JSON.parse] reads back what QuoteJSONString wrote. *)
Lemma parse_quote_units (n : nat) :
  forall s rest acc,
    (length s <= n)%nat -> is_jsstring s ->
    parse_string_chars (quote_units s ++ QUOTE :: rest) acc
    = Parsed (rev acc ++ s) rest.
Proof.
  induction n as [|n IH]; intros s rest acc Hn Hs.
  - destruct s; [|simpl in Hn; lia]. cbn. now rewrite app_nil_r.
  - destruct s as [|c s]; [cbn; now rewrite app_nil_r|].
    inversion Hs as [|? ? Hc Hrest]; subst. simpl in Hn.
    assert (forall t, is_jsstring t -> (length t <= n)%nat ->
              parse_string_chars ((quote_unit c ++ quote_units t) ++ QUOTE :: rest) acc
              = Parsed (rev acc ++ c :: t) rest) as Kunit.
    { intros t Ht Hl. rewrite <- app_assoc, (parse_quote_unit c _ acc Hc).
      rewrite (IH t rest (c :: acc) Hl Ht). cbn [rev].
      now rewrite <- app_assoc. }
    cbn [quote_units].
    destruct (is_high_surrogate c) eqn:Eh; [|apply Kunit; [exact Hrest|lia]].
    destruct s as [|d s'].
    + rewrite (parse_quote_unit c _ acc Hc). cbn. reflexivity.
    + destruct (is_low_surrogate d) eqn:El; [|apply Kunit; [exact Hrest|lia]].
      inversion Hrest as [|? ? Hd Hrest']; subst.
      apply surrogate_bounds in Eh. apply surrogate_bounds in El.
      cbn [app]. rewrite surrogate_is_plain by lia.
      rewrite surrogate_is_plain by lia.
      rewrite (IH s' rest (d :: c :: acc)); [|simpl in Hn; lia|exact Hrest'].
      cbn [rev]. now rewrite <- !app_assoc.
Qed.

Lemma parse_JSON_quote (s rest : jsstring) :
  is_jsstring s ->
  parse_string_chars (quote_units s ++ QUOTE :: rest) [] = Parsed s rest.
Proof. intros Hs. exact (parse_quote_units (length s) s rest [] (le_n _) Hs). Qed.

(** X11.  The body that [acknowledgeNextMonthTask] sends is a JSON text
    that [JSON.parse] reads back as the object of the two strings it was
    given, whatever code units they hold: quotation marks, backslashes,
    control characters and lone surrogates in an id are escaped and cannot
    change the shape of the body. *)
Theorem acknowledge_body_round_trip (env : Env) (upstream : Upstream)
    (hotelId taskId : jsstring) :
  is_jsstring hotelId ->
  is_jsstring taskId ->
  exists url init body,
    fst (run upstream (acknowledgeNextMonthTask env hotelId taskId)) = [(url, init)] /\
    init_body init = Some body /\
    JSON_parse body
    = Normal (JObject [(lit "hotel_id", JString hotelId);
                       (lit "task_id", JString taskId)]).
Proof.
  intros Hh Ht. unfold acknowledgeNextMonthTask. cbn [run].
  destruct (run upstream _) as [requests c] eqn:Hrun.
  assert (requests = []) as ->.
  { destruct (upstream _ _) as [res|e]; [destruct (negb (ok res))|];
      cbn [run] in Hrun; now injection Hrun as <- _. }
  eexists _, _, _. split; [reflexivity|]. split; [reflexivity|].
  unfold JSON_parse.
  set (text := JSON_stringify_record _).
  assert (text =
          ch "{" :: QUOTE :: quote_units (lit "hotel_id") ++ QUOTE :: ch ":" :: QUOTE ::
          quote_units hotelId ++ QUOTE :: ch "," :: QUOTE ::
          quote_units (lit "task_id") ++ QUOTE :: ch ":" :: QUOTE ::
          quote_units taskId ++ QUOTE :: [ch "}"]) as Htext.
  { subst text. unfold JSON_stringify_record, stringify_members, JSON_quote.
    repeat first [progress rewrite <- app_assoc | progress cbn [app]]. reflexivity. }
  assert (exists f, JSON_parse_fuel text = S (S (S (S f)))) as [f Hf].
  { exists (JSON_parse_fuel text - 4)%nat.
    unfold JSON_parse_fuel. rewrite Htext. cbn [length]. lia. }
  rewrite Hf, Htext.
  cbn [parse_value skip_ws].
  change (is_ws (ch "{")) with false. cbv iota.
  change (ch "{" =? ch "{") with true. cbv iota.
  cbn [skip_ws]. change (is_ws QUOTE) with false. cbv iota.
  change (QUOTE =? ch "}") with false. cbv iota.
  cbn [parse_members skip_ws]. change (is_ws QUOTE) with false. cbv iota.
  change (QUOTE =? QUOTE) with true. cbv iota.
  rewrite parse_JSON_quote by (unfold is_jsstring; cbn; repeat constructor).
  cbn [skip_ws]. change (is_ws (ch ":")) with false. cbv iota.
  change (ch ":" =? ch ":") with true. cbv iota.
  cbn [parse_value skip_ws]. change (is_ws QUOTE) with false. cbv iota.
  change (QUOTE =? ch "{") with false. change (QUOTE =? ch "[") with false.
  change (QUOTE =? QUOTE) with true. cbv iota.
  rewrite (parse_JSON_quote hotelId _ Hh).
  cbn [skip_ws]. change (is_ws (ch ",")) with false. cbv iota.
  change (ch "," =? ch ",") with true. cbv iota.
  cbn [parse_members skip_ws]. change (is_ws QUOTE) with false. cbv iota.
  change (QUOTE =? QUOTE) with true. cbv iota.
  rewrite parse_JSON_quote by (unfold is_jsstring; cbn; repeat constructor).
  cbn [skip_ws]. change (is_ws (ch ":")) with false. cbv iota.
  change (ch ":" =? ch ":") with true. cbv iota.
  cbn [parse_value skip_ws]. change (is_ws QUOTE) with false. cbv iota.
  change (QUOTE =? ch "{") with false. change (QUOTE =? ch "[") with false.
  change (QUOTE =? QUOTE) with true. cbv iota.
  rewrite (parse_JSON_quote taskId _ Ht).
  cbn [skip_ws]. change (is_ws (ch "}")) with false. cbv iota.
  change (ch "}" =? ch ",") with false. change (ch "}" =? ch "}") with true.
  cbv iota. cbn [skip_ws rev app]. reflexivity.
Qed.

Lemma acknowledge_body_round_trip_witness :
  exists url init body,
    fst (run (fun _ _ => Throw (TypeError (lit "fetch failed")))
             (acknowledgeNextMonthTask development (lit "h-1") (jlit "t'\1")))
    = [(url, init)] /\
    init_body init = Some body /\
    JSON_parse body
    = Normal (JObject [(lit "hotel_id", JString (lit "h-1"));
                       (lit "task_id", JString (jlit "t'\1"))]).
Proof.
  apply (acknowledge_body_round_trip development
           (fun _ _ => Throw (TypeError (lit "fetch failed")))
           (lit "h-1") (jlit "t'\1"));
    unfold is_jsstring; cbn; repeat constructor.
Defined.

(** X14.  The credential is taken on trust: the cookie value of an object
    with role admin, which any client can send, is passed through with
    the security headers on every path that is not public, admin paths
    included, when HTTPS enforcement does not apply. *)
Theorem admin_cookie_opens_every_path (toLowerCase : jsstring -> jsstring)
    (Hlc : lowers_ascii toLowerCase)
    (env : Env) (now : jsstring) (request : NextRequest) :
  cookies_get (lit "user") (cookies request) = Some (jlit "{'role':'admin'}") ->
  isPublicPath (pathname (nextUrl request)) = false ->
  https_enforced env request = false ->
  result (middleware toLowerCase env now request)
  = Normal (response_of request AllowWithHeaders).
Proof.
  intros Hck Hpub Hhttps.
  rewrite middleware_result. cbv zeta.
  rewrite Hpub, Hhttps, getUserFromRequest_cookie, Hck.
  change (JSON_parse (jlit "{'role':'admin'}"))
    with (Normal (JObject [(lit "role", JString (lit "admin"))])).
  cbn [negb truthy].
  destruct (requiresAdminAccess _); [|reflexivity].
  rewrite (some_role_includes_ascii toLowerCase _ "admin" Hlc) by reflexivity.
  reflexivity.
Qed.

Lemma admin_cookie_opens_every_path_witness :
  result (middleware ascii_toLowerCase production sample_time
            (sample_request "https:" "/user-management/roles"
               (Some (jlit "{'role':'admin'}"))))
  = Normal (response_of
              (sample_request "https:" "/user-management/roles"
                 (Some (jlit "{'role':'admin'}")))
              AllowWithHeaders).
Proof.
  apply (admin_cookie_opens_every_path ascii_toLowerCase ascii_toLowerCase_lowers);
    reflexivity.
Defined.

(** X15.  The one error that leaves the middleware is the TypeError of the
    role test; the SyntaxError of [JSON.parse] and the errors of the
    property access never do. *)
Theorem middleware_throws_only_the_role_error (toLowerCase : jsstring -> jsstring)
    (env : Env) (now : jsstring) (request : NextRequest) (e : JSError) :
  result (middleware toLowerCase env now request) = Throw e ->
  e = TypeError (lit "user.role?.toLowerCase is not a function").
Proof.
  rewrite middleware_result. cbv zeta.
  repeat case_if; try discriminate.
  destruct (getUserFromRequest request) as [| | | | |members];
    try (cbn; discriminate).
  unfold adminRoles. cbn [some]. unfold role_includes. cbn [get_role bind].
  destruct (last_member (lit "role") members) as [[| | |s| |]|]; cbn [bind];
    try (intros H; injection H as <-; reflexivity);
    repeat (destruct (includes _ _); cbn [bind]); discriminate.
Qed.

Lemma middleware_throws_only_the_role_error_witness :
  TypeError (lit "user.role?.toLowerCase is not a function")
  = TypeError (lit "user.role?.toLowerCase is not a function").
Proof.
  exact (middleware_throws_only_the_role_error ascii_toLowerCase development
           sample_time
           (sample_request "http:" "/users" (Some (jlit "{'role':[]}")))
           _ eq_refl).
Defined.

(* ================================================================== *)
(** ** Further evaluations *)
(* ================================================================== *)

Example JSON_parse_nested :
  JSON_parse (jlit "{'role':'Admin', 'n' : [1, -2.50e3, true, null, {}]}")
  = Normal (JObject [(lit "role", JString (lit "Admin"));
                     (lit "n", JArray [JNumber (mkNumber false 1 0);
                                       JNumber (mkNumber true 250 1);
                                       JBool true; JNull; JObject []])]).
Proof. vm_compute. reflexivity. Qed.

(** An ordinary protected path asks for no particular role. *)
Example dashboard_staff :
  result (middleware ascii_toLowerCase development sample_time
            (sample_request "http:" "/dashboard" (Some (jlit "{'role':'staff'}"))))
  = Normal (response_of
              (sample_request "http:" "/dashboard" (Some (jlit "{'role':'staff'}")))
              AllowWithHeaders).
Proof. reflexivity. Qed.

(** A credential without role on an admin path is sent to /dashboard. *)
Example admin_without_role :
  result (middleware ascii_toLowerCase development sample_time
            (sample_request "https:" "/admin" (Some (jlit "{'name':'x'}"))))
  = Normal (NextResponse_redirect (lit "https://example.com/dashboard")).
Proof. reflexivity. Qed.

(** A later duplicate of a member overwrites the earlier one. *)
Example duplicate_role :
  match JSON_parse (jlit "{'role':'admin','role':'guest'}") with
  | Normal user => principal_role user
  | Throw _ => None
  end = Some (lit "guest").
Proof. reflexivity. Qed.

(** A number too small for a double is zero, hence falsy. *)
Example underflow_is_falsy :
  match JSON_parse (jlit "1e-400") with
  | Normal user => truthy user
  | Throw _ => true
  end = false.
Proof. vm_compute. reflexivity. Qed.

Example urlencode_sample :
  urlencode (lit "/a b/c~d") = lit "%2Fa+b%2Fc%7Ed".
Proof. reflexivity. Qed.

Example acknowledge_request :
  fst (run (fun _ _ => Normal (mkFetchResponse 200 (jlit "{}")))
           (acknowledgeNextMonthTask (mkEnv None None) (lit "h1") (jlit "t'1")))
  = [(lit "undefined/api/compliance/acknowledge-task",
      mkInit (lit "POST") [(lit "Content-Type", lit "application/json")]
             (Some (jlit "{'hotel_id':'h1','task_id':'t\'1'}")))].
Proof. reflexivity. Qed.
